(** * Controlling monthly report: the data pipeline of [engine/processor.py]
      and the post-processing step of [engine/report.py]

    The development embeds, function by function, the pure part of the
    FBL3N monthly report: amount parsing, customer-number extraction,
    deduction bucketing and aggregation, customer-name resolution and the
    in-place blanking done by the report writer.

    Conventions of the embedding.
    - A pandas [DataFrame] is a list of rows; a row is a record whose
      fields are the columns the code reads or writes.  A cell that can hold
      [pd.NA]/[NaN] is an [option].
    - Python exceptions are the [Raise] case of [result].
    - Unsigned machine integers are [Z] with the wrap-around written out.
    - [LC_Amount] is a [float64] in the program.  The embedding keeps the
      exact rational value ([Q]): comparisons against the bin edges are
      exact in both, sums are those of the rationals.
    - Python [str] is modelled by 8-bit [string]; on that range the regex
      classes [\d] and [\D] are exactly the ASCII digits and their
      complement. *)

From Stdlib Require Import ZArith QArith Qabs String Ascii List Bool Lia.
From Stdlib Require DecimalString.
Import ListNotations.

#[local] Open Scope Z_scope.
#[local] Open Scope string_scope.

(** ** Exceptions *)

Inductive exn : Type :=
| ValueError (msg : string)
| AssertionError (msg : string)
| KeyError (key : string).

Inductive result (A : Type) : Type :=
| Ok (a : A)
| Raise (e : exn).

Arguments Ok {A} a.
Arguments Raise {A} e.

Definition bind {A B : Type} (m : result A) (k : A -> result B) : result B :=
  match m with
  | Ok a => k a
  | Raise e => Raise e
  end.

Notation "x <- m ;; k" := (bind m (fun x => k))
  (at level 61, m at next level, right associativity).

(** Row-wise application of a function that can raise: the first exception
    aborts the whole column operation. *)
Fixpoint mapM {A B : Type} (f : A -> result B) (l : list A) : result (list B) :=
  match l with
  | [] => Ok []
  | a :: l' => b <- f a ;; bs <- mapM f l' ;; Ok (b :: bs)
  end.

(** ** Characters and strings *)

Definition isdigit (c : ascii) : bool :=
  let n := N_of_ascii c in ((48 <=? n)%N && (n <=? 57)%N)%bool.

Definition digit_value (c : ascii) : Z := Z.of_N (N_of_ascii c) - 48.

(** [str.replace(old, new, regex=False)] for a one-character [old]. *)
Fixpoint str_replace (old : ascii) (new : string) (s : string) : string :=
  match s with
  | EmptyString => EmptyString
  | String c s' =>
      if Ascii.eqb c old then new ++ str_replace old new s'
      else String c (str_replace old new s')
  end.

(** [str.endswith(c)] for a one-character suffix. *)
Fixpoint endswith (s : string) (c : ascii) : bool :=
  match s with
  | EmptyString => false
  | String d EmptyString => Ascii.eqb d c
  | String _ s' => endswith s' c
  end.

Fixpoint forallb_string (p : ascii -> bool) (s : string) : bool :=
  match s with
  | EmptyString => true
  | String c s' => p c && forallb_string p s'
  end.

(** Value of a run of decimal digits, most significant first. *)
Fixpoint digits_value (acc : Z) (s : string) : Z :=
  match s with
  | EmptyString => acc
  | String c s' => digits_value (10 * acc + digit_value c) s'
  end.

(** ** Amount parsing ([_parse_amounts]) *)

Module Amounts.

(** Splits a string at its first ['.']. *)
Fixpoint split_point (s : string) : string * option string :=
  match s with
  | EmptyString => (EmptyString, None)
  | String c s' =>
      if Ascii.eqb c "." then (EmptyString, Some s')
      else let '(i, f) := split_point s' in (String c i, f)
  end.

Fixpoint pow10 (n : nat) : positive :=
  match n with
  | O => 1%positive
  | S n' => (10 * pow10 n')%positive
  end.

(** An unsigned decimal literal [ddd], [ddd.ddd], [ddd.] or [.ddd] with at
    least one digit; the value is the digit string over a power of ten. *)
Definition unsigned_decimal (s : string) : option Q :=
  let '(i, f) := split_point s in
  let f := match f with Some f => f | None => EmptyString end in
  if (forallb_string isdigit i && forallb_string isdigit f
      && negb (Nat.eqb (String.length i + String.length f) 0))%bool
  then Some (Qmake (digits_value 0 (i ++ f)) (pow10 (String.length f)))
  else None.

(** [pd.to_numeric] on one string, restricted to plain decimal literals
    with an optional leading sign.  [None] stands for every other outcome
    of the library call (a [ValueError] for text that is no number, and
    the spellings outside this fragment: the empty string, exponents,
    [inf], [nan], surrounding blanks).  [Numeric.to_numeric] below tells
    the NaN of the empty string from the exception. *)
Definition to_numeric (s : string) : option Q :=
  match s with
  | String "-" s' => option_map Qopp (unsigned_decimal s')
  | String "+" s' => unsigned_decimal s'
  | _ => unsigned_decimal s
  end.

(** [_parse_amounts], on one element of the series:
    [[
      parsed = parsed.str.replace(".", "", regex = False)
                     .str.replace(",", ".", regex = False)
      parsed = parsed.mask(parsed.str.endswith("-"),
                           "-" + parsed.str.replace("-", ""))
      parsed = pd.to_numeric(parsed)
    ]] *)
Definition _parse_amounts (val : string) : option Q :=
  let parsed := str_replace "," "." (str_replace "." "" val) in
  let parsed :=
    if endswith parsed "-" then "-" ++ str_replace "-" "" parsed
    else parsed in
  to_numeric parsed.

(** The string without its last character. *)
Fixpoint strip_last (s : string) : string :=
  match s with
  | EmptyString => EmptyString
  | String _ EmptyString => EmptyString
  | String c s' => String c (strip_last s')
  end.

(** The conversion in the words of the specification: remove all ['.'],
    replace [','] with ['.'], then if the result ends with ['-'], strip
    the trailing ['-'] and negate; parse the result as a signed decimal. *)
Definition parse_amounts_spec (val : string) : option Q :=
  let t := str_replace "," "." (str_replace "." "" val) in
  if endswith t "-" then option_map Qopp (to_numeric (strip_last t))
  else to_numeric t.

(** The SAP amount format: digits with ['.'] as thousands separator and
    [','] as decimal separator, and an optional trailing ['-']. *)
Definition amount_char (c : ascii) : bool :=
  (isdigit c || Ascii.eqb c "." || Ascii.eqb c ",")%bool.

Fixpoint sap_format (s : string) : bool :=
  match s with
  | EmptyString => true
  | String c EmptyString => (amount_char c || Ascii.eqb c "-")%bool
  | String c s' => (amount_char c && sap_format s')%bool
  end.

(** A digit or the decimal point: the characters of an amount after the
    separators are rewritten. *)
Definition plain_char (c : ascii) : bool := (isdigit c || Ascii.eqb c ".")%bool.

(** The two replacements that open [_parse_amounts]. *)
Definition normalize (s : string) : string :=
  str_replace "," "." (str_replace "." "" s).

(** [val] converts to a number whose value is [q]. *)
Definition parses_to (val : string) (q : Q) : Prop :=
  exists v, _parse_amounts val = Some v /\ (v == q)%Q.

End Amounts.


(** ** Line items: the rows produced by [convert_data] and enriched by
    [compact_data] *)

Module LineItem.

Record row : Type := mk {
  Currency : string;
  Company_Code : string;
  GL_Account : Z;
  Year : Z;
  Period : Z;
  Document_Type : string;
  Offsetting_Account : Z;
  Offsetting_Account_Type : string;
  LC_Amount : Q;
  Text : option string;
  Customer_Number : option Z
}.

Definition with_Text (r : row) (t : option string) : row :=
  mk (Currency r) (Company_Code r) (GL_Account r) (Year r) (Period r)
     (Document_Type r) (Offsetting_Account r) (Offsetting_Account_Type r)
     (LC_Amount r) t (Customer_Number r).

Definition with_Customer_Number (r : row) (n : option Z) : row :=
  mk (Currency r) (Company_Code r) (GL_Account r) (Year r) (Period r)
     (Document_Type r) (Offsetting_Account r) (Offsetting_Account_Type r)
     (LC_Amount r) (Text r) n.

End LineItem.

Definition isna {A : Type} (cell : option A) : bool :=
  match cell with
  | None => true
  | Some _ => false
  end.

Definition notna {A : Type} (cell : option A) : bool := negb (isna cell).

(** ** Customer-number extraction ([compact_data]) *)

Module Extractor.

(** *** The pattern [\D+([1,4]\d{6})(?!\d)]

    The matcher follows the backtracking search of [re]: the greedy [\D+]
    first takes every non-digit it can and gives characters back one at a
    time until the rest of the pattern matches. *)

(** The class [[1,4]]: the characters ['1'], [','] and ['4']. *)
Definition class_1_comma_4 (c : ascii) : bool :=
  (Ascii.eqb c "1" || Ascii.eqb c "," || Ascii.eqb c "4")%bool.

(** [\d{n}]: exactly [n] digits; returns them and the remaining text. *)
Fixpoint digits (n : nat) (s : string) : option (string * string) :=
  match n with
  | O => Some (EmptyString, s)
  | S n' =>
      match s with
      | String c s' =>
          if isdigit c then
            match digits n' s' with
            | Some (d, rest) => Some (String c d, rest)
            | None => None
            end
          else None
      | EmptyString => None
      end
  end.

(** [(?!\d)]: the next character, if any, is not a digit. *)
Definition not_followed_by_digit (s : string) : bool :=
  match s with
  | String c _ => negb (isdigit c)
  | EmptyString => true
  end.

(** [([1,4]\d{6})(?!\d)] at the head of [s]: the captured group and the
    text after the match. *)
Definition group_here (s : string) : option (string * string) :=
  match s with
  | String c s' =>
      if class_1_comma_4 c then
        match digits 6 s' with
        | Some (d, rest) =>
            if not_followed_by_digit rest then Some (String c d, rest) else None
        | None => None
        end
      else None
  | EmptyString => None
  end.

(** [\D*([1,4]\d{6})(?!\d)], greedy: the longer run of non-digits is tried
    before the shorter one. *)
Fixpoint nondigits_then_group (s : string) : option (string * string) :=
  match s with
  | String c s' =>
      if isdigit c then group_here s
      else
        match nondigits_then_group s' with
        | Some m => Some m
        | None => group_here s
        end
  | EmptyString => None
  end.

(** The whole pattern anchored at the head of [s]. *)
Definition match_here (s : string) : option (string * string) :=
  match s with
  | String c s' => if isdigit c then None else nondigits_then_group s'
  | EmptyString => None
  end.

(** [re.findall]: the groups of the non-overlapping matches, scanning from
    the left; after a match the scan resumes where the match ended.  The
    fuel bounds the number of scan steps; [findall] gives one more than
    the length of the text, which never runs out. *)
Fixpoint findall_from (fuel : nat) (s : string) : list string :=
  match fuel with
  | O => []
  | S fuel' =>
      match match_here s with
      | Some (g, rest) => g :: findall_from fuel' rest
      | None =>
          match s with
          | String _ s' => findall_from fuel' s'
          | EmptyString => []
          end
      end
  end.

Definition findall (s : string) : list string :=
  findall_from (S (String.length s)) s.

(** [np.uint64(text)] on a captured group.  A group is seven characters
    long, six of them digits, so the only text the conversion can refuse
    is one with a character that is no digit. *)
Definition np_uint64 (text : string) : result Z :=
  if (forallb_string isdigit text && negb (String.eqb text ""))%bool
  then Ok (digits_value 0 text)
  else Raise (ValueError "invalid literal for int() with base 10").

(** [[
      data["Text"].fillna("", inplace = True)
    ]] *)
Definition fillna_Text (r : LineItem.row) : LineItem.row :=
  LineItem.with_Text r
    (Some match LineItem.Text r with Some t => t | None => "" end).

Definition text_of (r : LineItem.row) : string :=
  match LineItem.Text r with Some t => t | None => "" end.

(** [[
      data = data.assign(
        Customer_Number = lambda x: x.Text.str.findall(r"\D+([1,4]\d{6})(?!\d)"))
      data["Customer_Number"] = data["Customer_Number"].apply(
        lambda x: np.uint64(x[0]) if len(x) >= 1 else pd.NA)
    ]] *)
Definition first_or_NA (x : list string) : result (option Z) :=
  match x with
  | g :: _ => n <- np_uint64 g ;; Ok (Some n)
  | [] => Ok None
  end.

Definition extract_customer_number (r : LineItem.row) : result LineItem.row :=
  n <- first_or_NA (findall (text_of r)) ;;
  Ok (LineItem.with_Customer_Number r n).

(** [[
      missing_cust_acc = data["Offsetting_Account"] != 48505240 & data["Customer_Number"].isna()
    ]]
    In Python [&] binds tighter than [!=], so the mask is
    [Offsetting_Account != (48505240 & Customer_Number.isna())].
    The integer is and-ed bitwise with the boolean read as 0 or 1 and
    pandas turns the outcome back into a boolean; the account number is then
    compared with that boolean read as 0 or 1. *)
Definition int_and_bool (k : Z) (b : bool) : bool :=
  negb (Z.land k (Z.b2z b) =? 0)%Z.

Definition uint_ne_bool (x : Z) (b : bool) : bool :=
  negb (x =? Z.b2z b)%Z.

Definition missing_cust_acc (r : LineItem.row) : bool :=
  uint_ne_bool (LineItem.Offsetting_Account r)
    (int_and_bool 48505240 (isna (LineItem.Customer_Number r))).

(** [[
      data.loc[missing_cust_acc, "Customer_Number"] = data.loc[missing_cust_acc, "Offsetting_Account"]
    ]] *)
Definition fill_from_offsetting_account (r : LineItem.row) : LineItem.row :=
  if missing_cust_acc r
  then LineItem.with_Customer_Number r (Some (LineItem.Offsetting_Account r))
  else r.

(** [astype("uint32")]: the integer conversion of numpy keeps the low 32
    bits; it is the identity on the numbers below [2 ^ 32], which is where
    the customer and account numbers of the statements below lie. *)
Definition astype_uint32 (n : Z) : Z := n mod 2 ^ 32.

(** [[
      exists_cust_acc = data["Customer_Number"].notna()
      data.loc[exists_cust_acc, "Customer_Number"] =
        data.loc[exists_cust_acc, "Customer_Number"].astype("uint32")
    ]] *)
Definition cast_customer_number (r : LineItem.row) : LineItem.row :=
  match LineItem.Customer_Number r with
  | Some n => LineItem.with_Customer_Number r (Some (astype_uint32 n))
  | None => r
  end.

(** [compact_data]: a batch is the table of one [convert_data] call. *)
Definition compact_data (converted : list (list LineItem.row))
  : result (list LineItem.row) :=
  if (length converted =? 0)%nat
  then Raise (ValueError "The input data contains no records!")
  else
    let data := concat converted in
    let data := map fillna_Text data in
    data <- mapM extract_customer_number data ;;
    let data := map fill_from_offsetting_account data in
    Ok (map cast_customer_number data).

(** What [compact_data] does to one row of the concatenated table. *)
Definition compact_row (r : LineItem.row) : result LineItem.row :=
  r <- extract_customer_number (fillna_Text r) ;;
  Ok (cast_customer_number (fill_from_offsetting_account r)).

(** A posting as [convert_data] delivers it: no customer number yet. *)
Definition posting (text : string) (offsetting_account : Z) : LineItem.row :=
  LineItem.mk "EUR" "0075" 66010030 2021 5 "DZ" offsetting_account "D"
    (100 # 1) (Some text) None.

(** The shape of a captured group: a character of the class and six
    digits. *)
Definition group_shape (g : string) : Prop :=
  exists c d, g = String c d /\ class_1_comma_4 c = true
    /\ String.length d = 6%nat /\ forallb_string isdigit d = true.

(** [g] occurs in [text] right after a non-empty run of non-digits and is
    not followed by a digit. *)
Definition occurs_delimited (g text : string) : Prop :=
  exists before pre rest,
    text = before ++ pre ++ g ++ rest
    /\ pre <> ""
    /\ forallb_string (fun c => negb (isdigit c)) pre = true
    /\ not_followed_by_digit rest = true.

End Extractor.

(** ** Aggregation ([_aggregate_data]) *)

Module Agg.

(** A row of the stacked pivot. *)
Record row : Type := mk {
  Company_Code : string;
  GL_Account : Z;
  Year : Z;
  Period : Z;
  Customer_Number : option Z;
  Currency : string;
  Deductions : string;
  Deductions_Count : Z;
  Deductions_Total : Q
}.

Definition with_Customer_Number (r : row) (n : option Z) : row :=
  mk (Company_Code r) (GL_Account r) (Year r) (Period r) n (Currency r)
     (Deductions r) (Deductions_Count r) (Deductions_Total r).

End Agg.

Module Aggregator.

Definition Qlt_bool (x y : Q) : bool := negb (Qle_bool y x).

(** [pd.cut(x, bins, right = True, labels)], with the default
    [include_lowest = False]: the label of the interval [(lo, hi]] between
    two consecutive edges that holds [x]; a value in no interval gets no
    label ([NaN]). *)
Fixpoint cut (bins : list Q) (labels : list string) (x : Q) : option string :=
  match bins, labels with
  | lo :: ((hi :: _) as bins'), lab :: labels' =>
      if (Qlt_bool lo x && Qle_bool x hi)%bool then Some lab
      else cut bins' labels' x
  | _, _ => None
  end.

Definition bins : list Q := [0; 30; 50; 999999]%Q.
Definition labels : list string := ["under 30"; "30 - 50"; "over 50"].

(** [[
      data["LC_Amount_ABS"] = data["LC_Amount"].abs()
      data["Deductions"] = pd.cut(x = data["LC_Amount_ABS"], right = True,
        labels = ["under 30", "30 - 50", "over 50"], bins = [0, 30, 50, 999999])
    ]] *)
Definition deduction (r : LineItem.row) : option string :=
  cut bins labels (Qabs (LineItem.LC_Amount r)).

(** The index of the pivot; [Customer_Number] after [fillna(0)]. *)
Definition key : Type := (string * Z * Z * Z * Z * string)%type.

Definition fillna0 (n : option Z) : Z :=
  match n with
  | Some n => n
  | None => 0
  end.

Definition key_of (r : LineItem.row) : key :=
  (LineItem.Company_Code r, LineItem.GL_Account r, LineItem.Year r,
   LineItem.Period r, fillna0 (LineItem.Customer_Number r), LineItem.Currency r).

Definition key_eqb (a b : key) : bool :=
  let '(cc, gl, y, p, cn, cur) := a in
  let '(cc', gl', y', p', cn', cur') := b in
  (String.eqb cc cc' && (gl =? gl')%Z && (y =? y')%Z && (p =? p')%Z
   && (cn =? cn')%Z && String.eqb cur cur')%bool.

(** Distinct values in order of first appearance. *)
Fixpoint unique (l : list key) : list key :=
  match l with
  | [] => []
  | k :: l' => k :: filter (fun k' => negb (key_eqb k' k)) (unique l')
  end.

Definition has_label (b : string) (r : LineItem.row) : bool :=
  match deduction r with
  | Some b' => String.eqb b' b
  | None => false
  end.

(** The rows grouped under index [k] and column [b].  A row whose
    [Deductions] is [NaN] belongs to no group: the grouping of the pivot
    leaves out the rows with a missing key. *)
Definition group (data : list LineItem.row) (k : key) (b : string)
  : list LineItem.row :=
  filter (fun r => (key_eqb (key_of r) k && has_label b r)%bool) data.

(** The index of the pivot: the keys of the grouped rows. *)
Definition index (data : list LineItem.row) : list key :=
  unique (map key_of (filter (fun r => notna (deduction r)) data)).

(** The columns of the pivot: the labels some row falls under, in the
    order of the categories. *)
Definition columns (data : list LineItem.row) : list string :=
  filter (fun b => existsb (has_label b) data) labels.

(** [x.sum()] as the exact sum of the values.  The program adds [float64]
    numbers, so its sum is this one up to rounding, and is this one where
    no addition rounds (see [Exact.whole]). *)
Fixpoint sumQ (l : list Q) : Q :=
  match l with
  | [] => 0
  | x :: l' => x + sumQ l'
  end.

(** [stacked["Deductions_Count"].astype("uint16")]: the count is kept in 16
    bits. *)
Definition astype_uint16 (n : Z) : Z := n mod 2 ^ 16.

(** One row of [pivoted.stack().reset_index()]: the aggregates of a cell,
    [lambda x: x.count()] and [lambda x: x.sum()]; an empty cell holds the
    [fill_value] 0, which is also the count and the sum of no rows. *)
Definition stacked_row (data : list LineItem.row) (k : key) (b : string)
  : Agg.row :=
  let '(cc, gl, y, p, cn, cur) := k in
  let cell := group data k b in
  Agg.mk cc gl y p (Some cn) cur b
    (astype_uint16 (Z.of_nat (length cell)))
    (sumQ (map LineItem.LC_Amount cell)).

(** [_aggregate_data].  The rows come out index by index and, within an
    index, column by column; pandas sorts the index, the embedding lists it
    in order of first appearance (no statement below depends on the order
    of the rows).

    When no row at all falls into a bin the pivot has neither rows nor
    columns, and the column access
    [stacked["Deductions_Count"]] that follows finds no such column. *)
Definition _aggregate_data (preprocessed : list LineItem.row)
  : result (list Agg.row) :=
  let data := preprocessed in
  match columns data with
  | [] => Raise (KeyError "Deductions_Count")
  | cols =>
      Ok (flat_map (fun k => map (stacked_row data k) cols) (index data))
  end.

(** *** What the claims measure *)

(** The index an output row belongs to. *)
Definition agg_key (r : Agg.row) : key :=
  (Agg.Company_Code r, Agg.GL_Account r, Agg.Year r, Agg.Period r,
   fillna0 (Agg.Customer_Number r), Agg.Currency r).

Definition rows_of_key (stacked : list Agg.row) (k : key) : list Agg.row :=
  filter (fun r => key_eqb (agg_key r) k) stacked.

Fixpoint sumZ (l : list Z) : Z :=
  match l with
  | [] => 0
  | x :: l' => x + sumZ l'
  end.

(** [Deductions_Total] and [Deductions_Count] summed over the buckets of
    an index. *)
Definition Deductions_Total_of_key (stacked : list Agg.row) (k : key) : Q :=
  sumQ (map Agg.Deductions_Total (rows_of_key stacked k)).

Definition Deductions_Count_of_key (stacked : list Agg.row) (k : key) : Z :=
  sumZ (map Agg.Deductions_Count (rows_of_key stacked k)).

(** The input rows mapping to an index, and their signed amounts summed. *)
Definition items_of_key (data : list LineItem.row) (k : key)
  : list LineItem.row :=
  filter (fun r => key_eqb (key_of r) k) data.

Definition LC_Amount_of_key (data : list LineItem.row) (k : key) : Q :=
  sumQ (map LineItem.LC_Amount (items_of_key data k)).

(** The rows of an index that fall into a bin. *)
Definition binned_items_of_key (data : list LineItem.row) (k : key)
  : list LineItem.row :=
  filter (fun r => (key_eqb (key_of r) k && notna (deduction r))%bool) data.

(** A line item of company 0075 with a given customer and amount. *)
Definition item (customer : option Z) (amount : Q) : LineItem.row :=
  LineItem.mk "EUR" "0075" 66010030 2021 5 "DZ" 999999 "D" amount (Some "")
    customer.

Definition key_0075 (customer : Z) : key :=
  ("0075", 66010030, 2021, 5, customer, "EUR").

(** Two rows of customer 1000001: one above the last bin edge, one of 10. *)
Definition large_amount_table : list LineItem.row :=
  [item (Some 1000001) 1000000%Q; item (Some 1000001) 10%Q].

(** Two rows of customer 1000001: one of amount 0, one of 10. *)
Definition zero_amount_table : list LineItem.row :=
  [item (Some 1000001) 0%Q; item (Some 1000001) 10%Q].

End Aggregator.

(** ** Customer-name resolution ([assign_customers]) *)

Module Customer.

(** A row of the merged customer master returned by
    [_load_customer_data], with the columns [assign_customers] selects.
    The two files it is read from are data, not code: the master is an
    argument of the embedding.  The outer merge of the files leaves [NaN]
    in the columns of the side that has no partner, hence the options. *)
Record row : Type := mk {
  head_office : option Z;
  branch_number : option Z;
  Customer_Name : option string;
  Company_Code : option string
}.

End Customer.

Module Processed.

(** A row of the table returned by [assign_customers]: the aggregated row,
    the [head_office] column the second merge brings along, and the name. *)
Record row : Type := mk {
  base : Agg.row;
  head_office : option Z;
  Customer_Name : option string
}.

Definition with_Customer_Number (r : row) (n : option Z) : row :=
  mk (Agg.with_Customer_Number (base r) n) (head_office r) (Customer_Name r).

End Processed.

Module Resolver.

(** [pd.merge(left, right, how = "left", ...)]: every left row, in order,
    paired with each right row its key matches, or once with [NaN]s when no
    right row matches. *)
Definition merge_left {A B : Type} (on : A -> B -> bool)
    (left : list A) (right : list B) : list (A * option B) :=
  flat_map
    (fun a =>
       match filter (on a) right with
       | [] => [(a, None)]
       | found => map (fun b => (a, Some b)) found
       end)
    left.

(** [cust_data[["branch_number", "Customer_Name", "Company_Code"]].dropna(axis = 0)] *)
Definition branch_table (cust_data : list Customer.row)
  : list (Z * string * string) :=
  flat_map
    (fun c =>
       match Customer.branch_number c, Customer.Customer_Name c,
             Customer.Company_Code c with
       | Some b, Some n, Some cc => [(b, n, cc)]
       | _, _, _ => []
       end)
    cust_data.

Definition opt_Z_eqb (a b : option Z) : bool :=
  match a, b with
  | Some x, Some y => (x =? y)%Z
  | None, None => true
  | _, _ => false
  end.

Definition opt_string_eqb (a b : option string) : bool :=
  match a, b with
  | Some x, Some y => String.eqb x y
  | None, None => true
  | _, _ => false
  end.

Definition pair_eqb (a b : option Z * option string) : bool :=
  (opt_Z_eqb (fst a) (fst b) && opt_string_eqb (snd a) (snd b))%bool.

(** [DataFrame.drop_duplicates()]: the first of equal rows is kept. *)
Fixpoint drop_duplicates (l : list (option Z * option string))
  : list (option Z * option string) :=
  match l with
  | [] => []
  | x :: l' => x :: filter (fun y => negb (pair_eqb y x)) (drop_duplicates l')
  end.

(** [cust_data[["head_office", "Customer_Name"]].drop_duplicates()] *)
Definition head_office_table (cust_data : list Customer.row)
  : list (option Z * option string) :=
  drop_duplicates
    (map (fun c => (Customer.head_office c, Customer.Customer_Name c)) cust_data).

(** [left_on = ["Customer_Number", "Company_Code"],
     right_on = ["branch_number", "Company_Code"]] *)
Definition on_branch (a : Agg.row) (b : Z * string * string) : bool :=
  let '(branch_number, _, company_code) := b in
  (opt_Z_eqb (Agg.Customer_Number a) (Some branch_number)
   && String.eqb (Agg.Company_Code a) company_code)%bool.

(** [left_on = "Customer_Number", right_on = "head_office"] *)
Definition on_head_office (x : Agg.row * option (Z * string * string))
    (h : option Z * option string) : bool :=
  opt_Z_eqb (Agg.Customer_Number (fst x)) (fst h).

(** First merge; the columns kept from the right are [Customer_Name]. *)
Definition updated_cust_num (aggregated : list Agg.row)
    (cust_data : list Customer.row)
  : list (Agg.row * option (Z * string * string)) :=
  merge_left on_branch aggregated (branch_table cust_data).

(** Second merge. *)
Definition updated_hd_off (aggregated : list Agg.row)
    (cust_data : list Customer.row)
  : list (Agg.row * option (Z * string * string)
          * option (option Z * option string)) :=
  merge_left on_head_office (updated_cust_num aggregated cust_data)
    (head_office_table cust_data).

(** The columns [Customer_Name_x] and [Customer_Name_y] of the second
    merge. *)
Definition Customer_Name_x (x : option (Z * string * string)) : option string :=
  match x with
  | Some (_, name, _) => Some name
  | None => None
  end.

Definition Customer_Name_y (y : option (option Z * option string))
  : option string :=
  match y with
  | Some (_, name) => name
  | None => None
  end.

Definition head_office_y (y : option (option Z * option string)) : option Z :=
  match y with
  | Some (h, _) => h
  | None => None
  end.

(** [[
      mask = updated_hd_off["Customer_Name_x"].isna()
      updated_hd_off.loc[mask, "Customer_Name_x"] = updated_hd_off["Customer_Name_y"]
      dropped = updated_hd_off.drop("Customer_Name_y", axis = 1)
      renamed = dropped.rename({"Customer_Name_x": "Customer_Name"}, axis = 1)
    ]] *)
Definition merge_names (name_x name_y : option string) : option string :=
  if isna name_x then name_y else name_x.

Definition renamed_row
    (r : Agg.row * option (Z * string * string)
         * option (option Z * option string)) : Processed.row :=
  let '(a, x, y) := r in
  Processed.mk a (head_office_y y)
    (merge_names (Customer_Name_x x) (Customer_Name_y y)).

Definition renamed (aggregated : list Agg.row) (cust_data : list Customer.row)
  : list Processed.row :=
  map renamed_row (updated_hd_off aggregated cust_data).

(** [assign_customers]; [cust_data] is the table
    [_load_customer_data(branches_path, head_offices_path)] returns. *)
Definition assign_customers (compacted : list LineItem.row)
    (cust_data : list Customer.row) : result (list Processed.row) :=
  match compacted with
  | [] => Raise (ValueError "Input data contains no records!")
  | _ =>
      aggregated <- Aggregator._aggregate_data compacted ;;
      let renamed := renamed aggregated cust_data in
      if (length aggregated =? length renamed)%nat then Ok renamed
      else Raise (AssertionError "Input and output data rows not equal!")
  end.

(** *** What the claims measure *)

(** The name the first merge finds for an aggregated row: that of the first
    branch row with its customer number and company code. *)
Definition branch_name (cust_data : list Customer.row) (a : Agg.row)
  : option string :=
  Customer_Name_x (hd_error (filter (on_branch a) (branch_table cust_data))).

(** The row the second merge finds: the first head-office row with the
    customer number of the aggregated row. *)
Definition head_office_match (cust_data : list Customer.row) (a : Agg.row)
  : option (option Z * option string) :=
  hd_error
    (filter (fun h => opt_Z_eqb (Agg.Customer_Number a) (fst h))
       (head_office_table cust_data)).

Definition head_office_name (cust_data : list Customer.row) (a : Agg.row)
  : option string :=
  Customer_Name_y (head_office_match cust_data a).

(** A master with one head office, 4000001, and its two branches. *)
Definition master : list Customer.row :=
  [ Customer.mk (Some 4000001) (Some 1000001) (Some "Shop A") (Some "0075");
    Customer.mk (Some 4000001) (Some 1000002) (Some "Shop B") (Some "0075") ].

(** A master in which 1000001 is a branch number and also the number of a
    head office that carries another name. *)
Definition master_both : list Customer.row :=
  [ Customer.mk (Some 4000001) (Some 1000001) (Some "Branch") (Some "0075");
    Customer.mk (Some 1000001) None (Some "Head office") None ].

(** One posting of 10 for a customer. *)
Definition postings_of (customer : Z) : list LineItem.row :=
  [Aggregator.item (Some customer) 10%Q].

End Resolver.

(** ** Post-processing in [generate_excel_report] *)

Module Report.

(** The two tables of the caller that the function receives by reference. *)
Record frames : Type := mk {
  processed : list Processed.row;
  exported : list LineItem.row
}.

(** [processed.loc[processed["Customer_Number"] == 0, "Customer_Number"] = pd.NA] *)
Definition is_zero (n : option Z) : bool :=
  match n with
  | Some n => (n =? 0)%Z
  | None => false
  end.

Definition blank_processed (r : Processed.row) : Processed.row :=
  if is_zero (Agg.Customer_Number (Processed.base r))
  then Processed.with_Customer_Number r None
  else r.

(** [exported.loc[exported["Customer_Number"] == 0, "Customer_Number"] = pd.NA] *)
Definition blank_exported (r : LineItem.row) : LineItem.row :=
  if is_zero (LineItem.Customer_Number r)
  then LineItem.with_Customer_Number r None
  else r.

(** [generate_excel_report].  Everything after the two assignments works
    on copies ([processed[processed_header]], [exported[raw_header]]) and on
    the file system; [writer] stands for that part: it receives the two
    tables as they are after the assignments and gives the path of the
    report or raises.  The function returns what the call returns together
    with the caller's tables as the call leaves them. *)
Definition generate_excel_report
    (writer : list Processed.row -> list LineItem.row -> result string)
    (tables : frames) : result string * frames :=
  match processed tables with
  | [] => (Raise (ValueError "The processed data contains no records!"), tables)
  | _ =>
      match exported tables with
      | [] => (Raise (ValueError "The exported data contains no records!"), tables)
      | _ =>
          let tables := mk (map blank_processed (processed tables)) (exported tables) in
          let tables := mk (processed tables) (map blank_exported (exported tables)) in
          (writer (processed tables) (exported tables), tables)
      end
  end.

(** *** Sample tables *)

(** An aggregated row without customer (number 0) and without name. *)
Definition unassigned_row : Processed.row :=
  Processed.mk
    (Agg.mk "0075" 66010030 2021 5 (Some 0) "EUR" "under 30" 1 10%Q)
    None None.

Definition assigned_row : Processed.row :=
  Processed.mk
    (Agg.mk "0075" 66010030 2021 5 (Some 1000001) "EUR" "under 30" 2 25%Q)
    None (Some "Shop A").

(** A writer that succeeds. *)
Definition writer_ok (_ : list Processed.row) (_ : list LineItem.row)
  : result string :=
  Ok "report.xlsm".

(** The processed table holds a customer number 0, the exported table is
    empty. *)
Definition tables_exported_empty : frames :=
  mk [unassigned_row] [].

Definition tables_with_zero : frames :=
  mk [unassigned_row; assigned_row]
     [Aggregator.item (Some 0) 10%Q; Aggregator.item None 15%Q].

End Report.

(** ** Further observations on [compact_data] *)

Module Compacted.

(** The columns [compact_data] does not write: a row of the result agrees
    with the row of the concatenated batches it comes from on every column
    of [convert_data], its text being the old text with [NA] turned into
    the empty string. *)
Definition same_posting (r r' : LineItem.row) : Prop :=
  LineItem.Currency r' = LineItem.Currency r
  /\ LineItem.Company_Code r' = LineItem.Company_Code r
  /\ LineItem.GL_Account r' = LineItem.GL_Account r
  /\ LineItem.Year r' = LineItem.Year r
  /\ LineItem.Period r' = LineItem.Period r
  /\ LineItem.Document_Type r' = LineItem.Document_Type r
  /\ LineItem.Offsetting_Account r' = LineItem.Offsetting_Account r
  /\ LineItem.Offsetting_Account_Type r' = LineItem.Offsetting_Account_Type r
  /\ LineItem.LC_Amount r' = LineItem.LC_Amount r
  /\ LineItem.Text r' = Some (Extractor.text_of r).

(** The text holds no comma. *)
Definition comma_free (text : string) : bool :=
  forallb_string (fun c => negb (Ascii.eqb c ",")) text.

(** Two batches of postings, the second with a missing text. *)
Definition two_batches : list (list LineItem.row) :=
  [ [Extractor.posting "ABC 1234567 note" 0;
     Extractor.posting "no id here" 999999];
    [LineItem.mk "CZK" "0074" 66010010 2021 5 "DZ" 48505240 "S" (-25 # 2)
       None None] ].

End Compacted.

(** ** Further observations on [_aggregate_data] *)

Module Pivot.

(** The absolute amount of the row lies within the bins. *)
Definition within_bins (r : LineItem.row) : Prop :=
  (0 < Qabs (LineItem.LC_Amount r) /\ Qabs (LineItem.LC_Amount r) <= 999999)%Q.

(** The rows of the stacked table under one index and one label. *)
Definition cell (stacked : list Agg.row) (k : Aggregator.key) (b : string)
  : list Agg.row :=
  filter
    (fun row =>
       (Aggregator.key_eqb (Aggregator.agg_key row) k
        && String.eqb (Agg.Deductions row) b)%bool)
    stacked.

(** Postings of two customers, credits and debits of all three sizes. *)
Definition mixed_table : list LineItem.row :=
  [ Aggregator.item (Some 1000001) 10%Q;
    Aggregator.item (Some 1000001) (-40)%Q;
    Aggregator.item None (-30)%Q;
    Aggregator.item (Some 1000001) 120%Q;
    Aggregator.item None (5 # 2)%Q;
    Aggregator.item (Some 1000001) (-45)%Q ].

End Pivot.

(** ** Further observations on [assign_customers] *)

Module Master.

(** The keys of the first merge found in the master: branch number and
    company code of the rows that have both and a name. *)
Definition branch_keys (cust_data : list Customer.row) : list (Z * string) :=
  map (fun b => (fst (fst b), snd b)) (Resolver.branch_table cust_data).

(** The keys of the second merge: the head-office numbers of the distinct
    (head office, name) pairs. *)
Definition head_office_keys (cust_data : list Customer.row) : list (option Z) :=
  map fst (Resolver.head_office_table cust_data).

(** Two head offices with a name of their own and three branches. *)
Definition master_plain : list Customer.row :=
  [ Customer.mk (Some 4000001) (Some 1000001) (Some "Alpha") (Some "0075");
    Customer.mk (Some 4000001) (Some 1000002) (Some "Alpha") (Some "0075");
    Customer.mk (Some 4000002) (Some 1000003) (Some "Beta") (Some "0074");
    Customer.mk (Some 4000003) None None None ].

End Master.

(** ** The controller: [process_fbl3n_data] and [export_fbl3n_data] *)

Module Controller.

(** [process_fbl3n_data]; the customer master stands for the two files, as
    in [assign_customers]. *)
Definition process_fbl3n_data (exported : list (list LineItem.row))
    (cust_data : list Customer.row)
  : result (list LineItem.row * list Processed.row) :=
  compacted <- Extractor.compact_data exported ;;
  updated <- Resolver.assign_customers compacted cust_data ;;
  Ok (compacted, updated).

(** *** The export loop of [export_fbl3n_data]

    The calls into SAP are the environment of the function: [fbl3n.export]
    returns the exported text or raises, and what it does at a given call
    is not decided by this code.  The embedding numbers the calls of
    [fbl3n.export] in the order they are made and takes the outcome of each
    from a function of that number and of the company code of the call. *)

Inductive error : Type :=
| SapConnectionLostError (msg : string)
| DataExportError (msg : string)
| RuntimeError (msg : string)
| UnboundLocalError (variable : string)
| OtherError (class msg : string).

Inductive outcome (T : Type) : Type :=
| Returns (x : T)
| Raises (e : error).

Arguments Returns {T} x.
Arguments Raises {T} e.

(** How the [while] loop is left: by [break], by its condition turning
    false with the counter at [nth], or by an exception. *)
Inductive loop_exit : Type :=
| Break (data : string)
| Fell_through (nth : Z)
| Propagates (e : error).

(** [[
      while nth < max_attempts:
        try:
          data = fbl3n.export(exp_path, accs, cocd, from_date, to_date, layout)
        except fbl3n.SapConnectionLostError as exc:
          nth += 1
        except fbl3n.DataExportError:
          raise
        else:
          nth = 0
          break
    ]]
    [remaining] is [max_attempts - nth], the number of iterations the
    condition still admits; [calls] counts the calls of [fbl3n.export] made
    so far. *)
Fixpoint attempts (sap : nat -> outcome string) (remaining : nat) (nth : Z)
    (calls : nat) : loop_exit * nat :=
  match remaining with
  | O => (Fell_through nth, calls)
  | S remaining' =>
      match sap calls with
      | Returns data => (Break data, S calls)
      | Raises (SapConnectionLostError _) =>
          attempts sap remaining' (nth + 1) (S calls)
      | Raises e => (Propagates e, S calls)
      end
  end.

(** The [for] loop over the company codes of the rules.  [data] is the
    local variable of that name, unbound before the first export returns;
    [result] the list of converted tables. *)
Fixpoint countries {T : Type} (convert : string -> outcome T)
    (sap : nat -> string -> outcome string) (max_attempts : Z)
    (cocds : list string) (data : option string) (result : list T)
    (calls : nat) : outcome (list T) * nat :=
  match cocds with
  | [] => (Returns result, calls)
  | cocd :: rest =>
      let '(exit, calls) :=
        attempts (fun n => sap n cocd) (Z.to_nat max_attempts) 0 calls in
      let next (data : option string) :=
        match data with
        | None => (Raises (UnboundLocalError "data"), calls)
        | Some text =>
            match convert text with
            | Returns converted =>
                countries convert sap max_attempts rest data
                  (result ++ [converted])%list calls
            | Raises e => (Raises e, calls)
            end
        end in
      match exit with
      | Propagates e => (Raises e, calls)
      | Break text => next (Some text)
      | Fell_through nth =>
          if (nth =? 0)%Z then next data
          else (Raises (RuntimeError
                  "Attempts to handle the SapConnectionLostError failed!"),
                calls)
      end
  end.

(** What a call of [export_fbl3n_data] amounts to: what it returns or
    raises, how many exports it attempted and whether it reached
    [fbl3n.close()]. *)
Record run (T : Type) : Type := mk_run {
  returned : outcome (list T);
  export_calls : nat;
  closed : bool
}.

Arguments mk_run {T} returned export_calls closed.
Arguments returned {T} r.
Arguments export_calls {T} r.
Arguments closed {T} r.

(** [export_fbl3n_data].  [start] and [close] say whether [fbl3n.start] and
    [fbl3n.close] raise; [cocds] are the keys of [rules]; [convert] is
    [processor.convert_data]. *)
Definition export_fbl3n_data {T : Type} (start : option error)
    (sap : nat -> string -> outcome string) (convert : string -> outcome T)
    (close : option error) (cocds : list string) (max_attempts : Z) : run T :=
  match start with
  | Some e => mk_run (Raises e) 0 false
  | None =>
      match countries convert sap max_attempts cocds None [] 0 with
      | (Returns result, calls) =>
          match close with
          | Some e => mk_run (Raises e) calls true
          | None => mk_run (Returns result) calls true
          end
      | (Raises e, calls) => mk_run (Raises e) calls false
      end
  end.

(** The first [j] calls from call [c] on lose the connection. *)
Definition lost (sap : nat -> outcome string) (c j : nat) : Prop :=
  forall i, (i < j)%nat ->
    exists msg, sap (c + i)%nat = Raises (SapConnectionLostError msg).

(** The call does not lose the connection. *)
Definition settles (o : outcome string) : Prop :=
  match o with
  | Raises (SapConnectionLostError _) => False
  | _ => True
  end.

(** How the loop is left on an outcome that settles it. *)
Definition exit_of (o : outcome string) : loop_exit :=
  match o with
  | Returns data => Break data
  | Raises e => Propagates e
  end.

(** An environment for examples: the connection is lost at the calls 0 and
    1 and holds from call 2 on. *)
Definition flaky (n : nat) (cocd : string) : outcome string :=
  if (n <? 2)%nat then Raises (SapConnectionLostError "Connection to SAP lost!")
  else Returns ("| EUR |" ++ cocd ++ "|").

Definition always_lost (n : nat) (cocd : string) : outcome string :=
  Raises (SapConnectionLostError "Connection to SAP lost!").

(** A stand-in for [convert_data] in examples: the text itself. *)
Definition keep_text (text : string) : outcome string := Returns text.

End Controller.

(** ** The controller: [load_processing_rules] and [_compile_log_path] *)

Module Rules.

(** The parameters of one company code in [rules.yaml]. *)
Record rule : Type := mk {
  active : bool;
  country : string;
  accounts : list Z
}.

(** The loaded mapping from company code to parameters, in the order of
    the file.  A Python dict holds a key once. *)
Definition dict : Type := list (string * rule).

(** [rules[cocd]] *)
Fixpoint get (rules : dict) (cocd : string) : option rule :=
  match rules with
  | [] => None
  | (k, r) :: rest => if String.eqb k cocd then Some r else get rest cocd
  end.

(** [del rules[cocd]] *)
Definition del (rules : dict) (cocd : string) : dict :=
  filter (fun entry => negb (String.eqb (fst entry) cocd)) rules.

(** [[
      for cocd in rules.copy():
        if not rules[cocd]["active"]:
          ...
          del rules[cocd]
    ]]
    [cocds] are the keys of the copy still to visit, [rules] the mapping as
    the deletions have left it. *)
Fixpoint prune (cocds : list string) (rules : dict) : result dict :=
  match cocds with
  | [] => Ok rules
  | cocd :: rest =>
      match get rules cocd with
      | None => Raise (KeyError cocd)
      | Some r =>
          if negb (active r) then prune rest (del rules cocd)
          else prune rest rules
      end
  end.

(** [load_processing_rules], from the mapping [yaml.safe_load] has read. *)
Definition load_processing_rules (loaded : dict) : result dict :=
  prune (map fst loaded) loaded.

(** Three countries, the second switched off. *)
Definition three_countries : dict :=
  [ ("0075", mk true "Germany" [66010030; 66010010]);
    ("0074", mk false "Austria" [66010030]);
    ("0073", mk true "Switzerland" []) ].

End Rules.

Module LogPath.

(** [str(nth).zfill(3)]: the decimal digits of [nth], with zeros in front
    up to three characters. *)
Definition str (nth : nat) : string :=
  DecimalString.NilEmpty.string_of_uint (Nat.to_uint nth).

Fixpoint zeros (n : nat) : string :=
  match n with
  | O => ""
  | S n' => String "0" (zeros n')
  end.

Definition zfill (width : nat) (s : string) : string :=
  zeros (width - String.length s) ++ s.

(** [f"{date_tag}_{nth_file}.log"] *)
Definition log_name (date_tag : string) (nth : nat) : string :=
  date_tag ++ "_" ++ zfill 3 (str nth) ++ ".log".

(** [[
      nth = 0
      while True:
        nth += 1
        ...
        log_path = join(log_dir, log_name)
        if not isfile(log_path):
          break
      return log_path
    ]]
    [join] and [isfile] are those of [os.path], the latter standing for the
    files present when the function runs.  The loop has no bound of its
    own; [fuel] bounds the number of its iterations and [None] says that
    the bound was reached. *)
Fixpoint search (join : string -> string -> string) (isfile : string -> bool)
    (log_dir date_tag : string) (fuel nth : nat) : option string :=
  match fuel with
  | O => None
  | S fuel' =>
      let nth := S nth in
      let log_path := join log_dir (log_name date_tag nth) in
      if negb (isfile log_path) then Some log_path
      else search join isfile log_dir date_tag fuel' nth
  end.

Definition _compile_log_path (join : string -> string -> string)
    (isfile : string -> bool) (log_dir date_tag : string) (fuel : nat)
  : option string :=
  search join isfile log_dir date_tag fuel 0.

(** For examples: a join with a backslash and a directory that holds the
    first two logs of a day. *)
Definition join_backslash (dir name : string) : string := dir ++ "\" ++ name.

Definition two_logs (path : string) : bool :=
  (String.eqb path "logs\2021-05-15_001.log"
   || String.eqb path "logs\2021-05-15_002.log")%bool.

End LogPath.

(** ** Layout and naming of the report *)

Module Layout.

(** The columns of the two sheets ([processed_header], [raw_header]). *)
Definition processed_header : list string :=
  [ "Company_Code"; "GL_Account"; "Period"; "Year"; "Customer_Number";
    "Customer_Name"; "Currency"; "Deductions"; "Deductions_Count";
    "Deductions_Total" ].

Definition raw_header : list string :=
  [ "Company_Code"; "Year"; "Period"; "Document_Type"; "GL_Account";
    "Customer_Number"; "Currency"; "LC_Amount"; "Text"; "Offsetting_Account";
    "Offsetting_Account_Type" ].

(** [columns.str.replace("_", " ", regex=False)], before the sheets are
    written. *)
Definition format_headers (columns : list string) : list string :=
  map (str_replace "_" " ") columns.

(** [columns.str.replace(" ", "_", regex=False)], after the sheets are
    written. *)
Definition restore_headers (columns : list string) : list string :=
  map (str_replace " " "_") columns.

Definition no_blank (c : ascii) : bool := negb (Ascii.eqb c " ").

(** [data_fld_vals.astype("string").dropna().str.len()], on the column as
    [astype("string")] renders it (an absent value stays absent). *)
Fixpoint lengths (data_fld_vals : list (option string)) : list nat :=
  match data_fld_vals with
  | [] => []
  | Some v :: rest => String.length v :: lengths rest
  | None :: rest => lengths rest
  end.

(** [max(vals)] on a list of lengths. *)
Definition max (vals : list nat) : nat := fold_right Nat.max 0%nat vals.

(** [_get_col_width] *)
Definition _get_col_width (data_fld_vals : list (option string))
    (data_fld_name : string) : nat :=
  let vals := lengths data_fld_vals in
  let vals := (vals ++ [String.length data_fld_name])%list in
  max vals.

(** [s.startswith(prefix)] *)
Fixpoint startswith (s prefix : string) {struct prefix} : bool :=
  match prefix with
  | EmptyString => true
  | String p prefix' =>
      match s with
      | EmptyString => false
      | String c s' => (Ascii.eqb c p && startswith s' prefix')%bool
      end
  end.

(** [s.endswith(suffix)] *)
Fixpoint str_endswith (s suffix : string) : bool :=
  (String.eqb s suffix
   || match s with
      | EmptyString => false
      | String _ s' => str_endswith s' suffix
      end)%bool.

(** [s.replace(old, new)] for a non-empty [old]: the occurrences are taken
    from left to right and do not overlap.  [skip] counts the characters of
    the occurrence just replaced that are still to be passed over. *)
Fixpoint replace_from (old new : string) (skip : nat) (s : string) : string :=
  match s with
  | EmptyString => EmptyString
  | String c s' =>
      match skip with
      | S k => replace_from old new k s'
      | O =>
          if startswith s old
          then new ++ replace_from old new (String.length old - 1) s'
          else String c (replace_from old new 0 s')
      end
  end.

Definition replace (old new s : string) : string := replace_from old new 0 s.

(** [new_report_path = report_path.replace("xlsx", "xlsm")], the path
    [generate_excel_report] renames the workbook to and returns. *)
Definition new_report_path (report_path : string) : string :=
  replace "xlsx" "xlsm" report_path.

(** [str.lower()] on the characters of an 8-bit string: the capital
    letters A-Z and those of Latin-1 (192-222 without the multiplication
    sign 215) move up by 32. *)
Definition lower_char (c : ascii) : ascii :=
  let n := N_of_ascii c in
  if (((65 <=? n) && (n <=? 90))
      || ((192 <=? n) && (n <=? 214))
      || ((216 <=? n) && (n <=? 222)))%N%bool
  then ascii_of_N (n + 32)
  else c.

Fixpoint lower (s : string) : string :=
  match s with
  | EmptyString => EmptyString
  | String c s' => String (lower_char c) (lower s')
  end.

(** The configured name with the calendar placeholders filled in
    ([report_output]). *)
Definition substituted (name calendar_year calendar_month : string) : string :=
  let report_name := replace "$calendar_year$" calendar_year name in
  replace "$calendar_month$" calendar_month report_name.

(** [[
      if not report_name.lower().endswith(".xlsx"):
        report_name = "".join([report_name, ".xlsx"])
    ]] *)
Definition report_name (name calendar_year calendar_month : string) : string :=
  let report_name := substituted name calendar_year calendar_month in
  if negb (str_endswith (lower report_name) ".xlsx")
  then report_name ++ ".xlsx"
  else report_name.

End Layout.

(** ** The outcomes of [pd.to_numeric] *)

Module Numeric.

(** What [pd.to_numeric] makes of one text: a number, NaN, or the
    [ValueError] it raises on a text it cannot parse (which aborts the
    conversion of the whole series). *)
Inductive outcome : Type :=
| Number (q : Q)
| NaN
| Unparsable.

(** [pd.to_numeric] on one text of digits, points and signs.  The empty
    text is converted to NaN without an exception; any other text either
    is a decimal literal, read as in [Amounts.to_numeric], or raises. *)
Definition to_numeric (s : string) : outcome :=
  match s with
  | EmptyString => NaN
  | _ =>
      match Amounts.to_numeric s with
      | Some q => Number q
      | None => Unparsable
      end
  end.

(** The text [_parse_amounts] hands to [pd.to_numeric] (lines 28 and 29). *)
Definition masked (val : string) : string :=
  let parsed := str_replace "," "." (str_replace "." "" val) in
  if endswith parsed "-" then "-" ++ str_replace "-" "" parsed
  else parsed.

(** [_parse_amounts] on one element of the series, with the three outcomes
    told apart. *)
Definition _parse_amounts (val : string) : outcome :=
  to_numeric (masked val).

End Numeric.

(** ** Amounts whose sums do not round *)

Module Exact.

(** [LC_Amount] is a [float64] in the program and its sums round, so a sum
    of the program need not be the exact sum of the embedding.  On whole
    amounts it is: the amounts within the bins are below [2 ^ 20] in
    absolute value, so in a table of at most [2 ^ 32] rows every partial
    sum, in whatever order the additions are made, is a whole number below
    [2 ^ 53] in absolute value, and [float64] holds each of them
    exactly. *)
Definition whole (q : Q) : bool := (Qnum q mod Z.pos (Qden q) =? 0)%Z.

(** Postings of whole amounts for two customers, credits and debits of all
    three sizes. *)
Definition whole_table : list LineItem.row :=
  [ Aggregator.item (Some 1000001) 10%Q;
    Aggregator.item (Some 1000001) (-40)%Q;
    Aggregator.item None (-30)%Q;
    Aggregator.item (Some 1000001) 120%Q;
    Aggregator.item None 3%Q;
    Aggregator.item (Some 1000001) (-45)%Q ].

End Exact.

(** * Properties *)

(** ** Amount parsing *)

Section AmountFacts.
Import Amounts.

Lemma normalize_cons c s :
  normalize (String c s) =
    if Ascii.eqb c "." then normalize s
    else String (if Ascii.eqb c "," then "."%char else c) (normalize s).
Proof.
  unfold normalize. simpl.
  destruct (Ascii.eqb_spec c ".") as [->|Hp]; [reflexivity|].
  simpl. destruct (Ascii.eqb_spec c ","); reflexivity.
Qed.

Lemma amount_char_cases c :
  amount_char c = true ->
  c = "."%char \/ c = ","%char \/ (isdigit c = true /\ c <> "."%char /\ c <> ","%char).
Proof.
  unfold amount_char. intros H.
  destruct (Ascii.eqb_spec c "."); [now left|].
  destruct (Ascii.eqb_spec c ","); [now right; left|].
  rewrite !orb_false_r in H. right; right. auto.
Qed.

Lemma dash_not_amount_char : amount_char "-" = false.
Proof. reflexivity. Qed.

(** After the two replacements a well-formed amount is a run of digits
    and points, optionally followed by one minus sign. *)
Lemma normalize_shape s :
  sap_format s = true ->
  forallb_string plain_char (normalize s) = true
  \/ exists u, normalize s = u ++ "-" /\ forallb_string plain_char u = true.
Proof.
  induction s as [|c s IH]; intros H.
  - left; reflexivity.
  - destruct s as [|d s'].
    + simpl in H. rewrite normalize_cons. change (normalize "") with "".
      destruct (amount_char c) eqn:Ha.
      * left. destruct (amount_char_cases c Ha) as [->| [->|(Hd & Hp & Hc)]];
          try reflexivity.
        destruct (Ascii.eqb_spec c "."); [congruence|].
        destruct (Ascii.eqb_spec c ","); [congruence|].
        simpl. unfold plain_char. now rewrite Hd.
      * simpl in H. apply Ascii.eqb_eq in H. subst c.
        right. exists "". split; reflexivity.
    + assert (Hc : amount_char c = true /\ sap_format (String d s') = true).
      { change (sap_format (String c (String d s')))
          with (amount_char c && sap_format (String d s'))%bool in H.
        now apply andb_true_iff in H. }
      destruct Hc as [Ha Hs]. specialize (IH Hs).
      rewrite normalize_cons.
      destruct (amount_char_cases c Ha) as [->| [->|(Hd & Hp & Hc)]].
      * exact IH.
      * simpl. destruct IH as [IH|(u & -> & Hu)].
        -- left. simpl. now rewrite IH.
        -- right. exists (String "." u). split; [reflexivity|]. simpl.
           now rewrite Hu.
      * destruct (Ascii.eqb_spec c "."); [congruence|].
        destruct (Ascii.eqb_spec c ","); [congruence|].
        assert (Hpc : plain_char c = true) by (unfold plain_char; now rewrite Hd).
        destruct IH as [IH|(u & -> & Hu)].
        -- left. simpl. now rewrite Hpc, IH.
        -- right. exists (String c u). split; [reflexivity|]. simpl.
           now rewrite Hpc, Hu.
Qed.

Lemma plain_char_not_dash c : plain_char c = true -> Ascii.eqb c "-" = false.
Proof.
  intros H. destruct (Ascii.eqb_spec c "-") as [->|]; [discriminate|reflexivity].
Qed.

Lemma plain_no_dash_end u :
  forallb_string plain_char u = true -> endswith u "-" = false.
Proof.
  induction u as [|c u IH]; intros H; [reflexivity|].
  simpl in H. apply andb_true_iff in H as [Hc Hu].
  destruct u as [|d u']; simpl.
  - now apply plain_char_not_dash.
  - now apply IH.
Qed.

Lemma dash_end u : endswith (u ++ "-") "-" = true.
Proof.
  induction u as [|c u IH]; [reflexivity|].
  simpl. destruct (u ++ "-") eqn:E; [destruct u; discriminate|exact IH].
Qed.

Lemma strip_last_dash u : strip_last (u ++ "-") = u.
Proof.
  induction u as [|c u IH]; [reflexivity|].
  simpl. destruct (u ++ "-") eqn:E; [destruct u; discriminate|].
  now rewrite IH.
Qed.

Lemma remove_dash_plain u :
  forallb_string plain_char u = true -> str_replace "-" "" (u ++ "-") = u.
Proof.
  induction u as [|c u IH]; intros H; [reflexivity|].
  simpl in H. apply andb_true_iff in H as [Hc Hu].
  simpl. rewrite (plain_char_not_dash c Hc). now rewrite IH.
Qed.

Lemma to_numeric_plain u :
  forallb_string plain_char u = true -> to_numeric u = unsigned_decimal u.
Proof.
  destruct u as [|c u]; [reflexivity|]. intros H. simpl in H.
  apply andb_true_iff in H as [Hc _].
  unfold to_numeric.
  destruct c as [[] [] [] [] [] [] [] []]; try reflexivity; discriminate.
Qed.

Lemma parse_amounts_refines s :
  sap_format s = true -> _parse_amounts s = parse_amounts_spec s.
Proof.
  intros H. unfold _parse_amounts, parse_amounts_spec.
  fold (normalize s).
  destruct (normalize_shape s H) as [Hp|(u & -> & Hu)].
  - now rewrite (plain_no_dash_end _ Hp).
  - rewrite dash_end, strip_last_dash, (remove_dash_plain u Hu).
    rewrite (to_numeric_plain u Hu). reflexivity.
Qed.

(** C6: on a string in the SAP amount format, [_parse_amounts] computes what
    the specification words describe (all ['.'] removed, [','] turned into
    ['.'], a trailing ['-'] stripped and the value negated); and
    ["1.234,56"] converts to 1234.56, ["50,00-"] to -50.00 and ["0,00"] to
    0.0. *)
Theorem parse_amounts_sap_format :
  (forall s, sap_format s = true -> _parse_amounts s = parse_amounts_spec s)
  /\ parses_to "1.234,56" 1234.56
  /\ parses_to "50,00-" (-50.00)
  /\ parses_to "0,00" 0.0.
Proof.
  split; [exact parse_amounts_refines|].
  repeat split; eexists; (split; [reflexivity|]); reflexivity.
Qed.

Lemma parse_amounts_sap_format_witness :
  sap_format "1.234.567,89-" = true
  /\ _parse_amounts "1.234.567,89-" = parse_amounts_spec "1.234.567,89-"
  /\ _parse_amounts "1.234.567,89-" = Some (-123456789 # 100).
Proof.
  split; [reflexivity|].
  split; [apply (proj1 parse_amounts_sap_format); reflexivity|reflexivity].
Defined.

End AmountFacts.

(** Off the SAP format the two readings part: the code removes every
    minus sign, the words of the specification strip only the last one. *)
Example parse_amounts_inner_minus :
  Amounts._parse_amounts "-5-" = Some (-5 # 1)
  /\ Amounts.parse_amounts_spec "-5-" = Some (- (-5 # 1))%Q.
Proof. split; reflexivity. Qed.

(** ** Customer-number extraction *)

Section ExtractorFacts.
Import Extractor.

#[local] Arguments group_here : simpl never.

(** *** The scan never runs out of fuel *)

Lemma digits_rest n : forall s d rest,
  digits n s = Some (d, rest) ->
  String.length d = n /\ forallb_string isdigit d = true /\ s = d ++ rest.
Proof.
  induction n as [|n IH]; intros s d rest H; simpl in H.
  - inversion H; subst. repeat split.
  - destruct s as [|c s]; [discriminate|].
    destruct (isdigit c) eqn:Hc; [|discriminate].
    destruct (digits n s) as [[d' r']|] eqn:Hd; [|discriminate].
    inversion H; subst. destruct (IH _ _ _ Hd) as (Hl & Hall & ->).
    simpl. rewrite Hc, Hall, Hl. repeat split.
Qed.

Lemma append_length (a b : string) :
  String.length (a ++ b) = (String.length a + String.length b)%nat.
Proof. induction a as [|c a IH]; simpl; [reflexivity|now rewrite IH]. Qed.

(** A match of the group: its shape, and where it sits in the text. *)
Lemma group_here_shape s g rest :
  group_here s = Some (g, rest) ->
  exists c d, g = String c d /\ class_1_comma_4 c = true
    /\ String.length d = 6%nat /\ forallb_string isdigit d = true
    /\ s = g ++ rest /\ not_followed_by_digit rest = true.
Proof.
  unfold group_here. destruct s as [|c s]; [discriminate|].
  destruct (class_1_comma_4 c) eqn:Hc; [|discriminate].
  destruct (digits 6 s) as [[d r]|] eqn:Hd; [|discriminate].
  destruct (not_followed_by_digit r) eqn:Hn; [|discriminate].
  intros H; inversion H; subst.
  destruct (digits_rest _ _ _ _ Hd) as (Hl & Hall & ->).
  exists c, d. repeat split; assumption.
Qed.

Lemma group_here_shorter s g rest :
  group_here s = Some (g, rest) -> (String.length rest < String.length s)%nat.
Proof.
  intros H. destruct (group_here_shape _ _ _ H) as (c & d & -> & _ & Hl & _ & -> & _).
  simpl. rewrite append_length. lia.
Qed.

Lemma nondigits_then_group_shorter s : forall g rest,
  nondigits_then_group s = Some (g, rest) ->
  (String.length rest < String.length s)%nat.
Proof.
  induction s as [|c s IH]; intros g rest H; [discriminate|].
  simpl in H. destruct (isdigit c).
  - exact (group_here_shorter _ _ _ H).
  - destruct (nondigits_then_group s) as [[g' r']|] eqn:Hs.
    + inversion H; subst. specialize (IH _ _ eq_refl). simpl. lia.
    + exact (group_here_shorter _ _ _ H).
Qed.

Lemma match_here_shorter s g rest :
  match_here s = Some (g, rest) -> (String.length rest < String.length s)%nat.
Proof.
  unfold match_here. destruct s as [|c s]; [discriminate|].
  destruct (isdigit c); [discriminate|]. intros H.
  apply nondigits_then_group_shorter in H. simpl. lia.
Qed.

Lemma findall_from_enough : forall n m s,
  (String.length s < n)%nat -> (String.length s < m)%nat ->
  findall_from n s = findall_from m s.
Proof.
  induction n as [|n IH]; intros m s Hn Hm; [lia|].
  destruct m as [|m]; [lia|]. simpl.
  destruct (match_here s) as [[g rest]|] eqn:Hm'.
  - apply match_here_shorter in Hm'. f_equal. apply IH; lia.
  - destruct s as [|c s]; [reflexivity|]. simpl in Hn, Hm. apply IH; lia.
Qed.

(** More fuel than the text is long changes nothing: [findall] is the
    scan run to its end. *)
Lemma findall_fuel n s :
  (String.length s < n)%nat -> findall_from n s = findall s.
Proof. intros H. unfold findall. apply findall_from_enough; lia. Qed.

(** *** Every group has the shape of the pattern *)

Lemma nondigits_then_group_shape s : forall g rest,
  nondigits_then_group s = Some (g, rest) -> group_shape g.
Proof.
  induction s as [|c s IH]; intros g rest H; [discriminate|].
  simpl in H.
  assert (Hg : group_here (String c s) = Some (g, rest) -> group_shape g).
  { intros Hh. destruct (group_here_shape _ _ _ Hh) as (c' & d & ? & ? & ? & ? & _).
    exists c', d. auto. }
  destruct (isdigit c); [auto|].
  destruct (nondigits_then_group s) as [[g' r']|] eqn:Hs; [|auto].
  inversion H; subst. eapply IH; reflexivity.
Qed.

Lemma findall_from_shape : forall n s g,
  In g (findall_from n s) -> group_shape g.
Proof.
  induction n as [|n IH]; intros s g H; [contradiction|].
  simpl in H. destruct (match_here s) as [[g' rest]|] eqn:Hm.
  - destruct H as [<-|H]; [|eauto].
    unfold match_here in Hm. destruct s as [|c s]; [discriminate|].
    destruct (isdigit c); [discriminate|].
    eapply nondigits_then_group_shape; eassumption.
  - destruct s as [|c s]; [contradiction|]. eauto.
Qed.

Lemma findall_shape s g : In g (findall s) -> group_shape g.
Proof. apply findall_from_shape. Qed.

(** *** Where a group sits in the text *)

Lemma nondigits_then_group_context s : forall g rest,
  nondigits_then_group s = Some (g, rest) ->
  exists pre,
    s = pre ++ g ++ rest
    /\ forallb_string (fun c => negb (isdigit c)) pre = true
    /\ not_followed_by_digit rest = true.
Proof.
  induction s as [|c s IH]; intros g rest H; [discriminate|].
  simpl in H.
  assert (Hg : group_here (String c s) = Some (g, rest) ->
               exists pre, String c s = pre ++ g ++ rest
                 /\ forallb_string (fun c => negb (isdigit c)) pre = true
                 /\ not_followed_by_digit rest = true).
  { intros Hh.
    destruct (group_here_shape _ _ _ Hh) as (c' & d & _ & _ & _ & _ & Hs & Hn).
    exists "". repeat split; assumption. }
  destruct (isdigit c) eqn:Hc; [auto|].
  destruct (nondigits_then_group s) as [[g' r']|] eqn:Hs; [|auto].
  inversion H; subst.
  destruct (IH _ _ eq_refl) as (pre & -> & Hpre & Hn).
  exists (String c pre). simpl. rewrite Hc, Hpre. repeat split. assumption.
Qed.

Lemma match_here_context s g rest :
  match_here s = Some (g, rest) ->
  exists pre,
    s = pre ++ g ++ rest /\ pre <> ""
    /\ forallb_string (fun c => negb (isdigit c)) pre = true
    /\ not_followed_by_digit rest = true.
Proof.
  unfold match_here. destruct s as [|c s]; [discriminate|].
  destruct (isdigit c) eqn:Hc; [discriminate|]. intros H.
  destruct (nondigits_then_group_context _ _ _ H) as (pre & -> & Hpre & Hn).
  exists (String c pre). simpl. rewrite Hc, Hpre.
  repeat split; [discriminate|assumption].
Qed.

Lemma append_assoc (a b c : string) : (a ++ b) ++ c = a ++ b ++ c.
Proof. induction a as [|x a IH]; simpl; [reflexivity|now rewrite IH]. Qed.

Lemma findall_from_context : forall n s g,
  In g (findall_from n s) -> occurs_delimited g s.
Proof.
  induction n as [|n IH]; intros s g H; [contradiction|].
  simpl in H. destruct (match_here s) as [[g' rest']|] eqn:Hm.
  - destruct (match_here_context _ _ _ Hm) as (pre' & Hs & Hne & Hpre & Hn).
    destruct H as [<-|H].
    + exists "", pre', rest'. repeat split; assumption.
    + destruct (IH _ _ H) as (before & pre & rest & -> & Hne2 & Hpre2 & Hn2).
      exists (pre' ++ g' ++ before), pre, rest.
      repeat split; try assumption.
      rewrite Hs, !append_assoc. reflexivity.
  - destruct s as [|c s]; [contradiction|].
    destruct (IH _ _ H) as (before & pre & rest & -> & Hne & Hpre & Hn).
    exists (String c before), pre, rest. repeat split; assumption.
Qed.

(** Every group [findall] returns stands in the text behind a non-digit
    and before a character that is no digit (or at the end). *)
Lemma findall_context s g : In g (findall s) -> occurs_delimited g s.
Proof. apply findall_from_context. Qed.

(** *** The number read from a group *)

Lemma digit_value_range c : isdigit c = true -> 0 <= digit_value c <= 9.
Proof.
  unfold isdigit, digit_value. intros H.
  apply andb_true_iff in H as [H1 H2].
  apply N.leb_le in H1, H2. lia.
Qed.

Lemma digits_value_bounds : forall d acc,
  forallb_string isdigit d = true ->
  acc * 10 ^ Z.of_nat (String.length d) <= digits_value acc d
  < acc * 10 ^ Z.of_nat (String.length d) + 10 ^ Z.of_nat (String.length d).
Proof.
  induction d as [|c d IH]; intros acc H.
  - simpl. lia.
  - simpl in H. apply andb_true_iff in H as [Hc Hd].
    pose proof (digit_value_range c Hc) as Hv.
    specialize (IH (10 * acc + digit_value c) Hd).
    cbn [digits_value String.length].
    rewrite Nat2Z.inj_succ, Z.pow_succ_r by lia.
    assert (0 < 10 ^ Z.of_nat (String.length d)) by (apply Z.pow_pos_nonneg; lia).
    nia.
Qed.

Lemma class_digit c :
  class_1_comma_4 c = true -> isdigit c = true -> c = "1"%char \/ c = "4"%char.
Proof.
  unfold class_1_comma_4. intros H Hd.
  destruct (Ascii.eqb_spec c "1"); [now left|].
  destruct (Ascii.eqb_spec c "4"); [now right|].
  destruct (Ascii.eqb_spec c ","); [subst; discriminate|discriminate].
Qed.

(** A group that converts is a seven-digit number led by 1 or 4. *)
Lemma np_uint64_group g n :
  group_shape g -> np_uint64 g = Ok n ->
  1000000 <= n <= 1999999 \/ 4000000 <= n <= 4999999.
Proof.
  intros (c & d & -> & Hc & Hl & Hd). unfold np_uint64.
  destruct (forallb_string isdigit (String c d)) eqn:Hall; [|discriminate].
  simpl. intros H; inversion H; subst; clear H.
  simpl in Hall. apply andb_true_iff in Hall as [Hdc _].
  pose proof (digits_value_bounds d (10 * 0 + digit_value c) Hd) as Hb.
  rewrite Hl in Hb. change (10 ^ Z.of_nat 6) with 1000000 in Hb.
  cbn [digits_value].
  destruct (class_digit c Hc Hdc) as [->| ->].
  - left. change (10 * 0 + digit_value "1") with (digit_value "1") in Hb.
    change (digit_value "1") with 1 in *. lia.
  - right. change (10 * 0 + digit_value "4") with (digit_value "4") in Hb.
    change (digit_value "4") with 4 in *. lia.
Qed.

(** A group led by the comma of the class does not convert. *)
Lemma np_uint64_comma d :
  np_uint64 (String "," d) = Raise (ValueError "invalid literal for int() with base 10").
Proof. reflexivity. Qed.

(** Whatever the text, an identifier that the extraction step delivers
    lies in 1000000..1999999 or 4000000..4999999. *)
Lemma extracted_identifier_range r r' n :
  extract_customer_number r = Ok r' ->
  LineItem.Customer_Number r' = Some n ->
  1000000 <= n <= 1999999 \/ 4000000 <= n <= 4999999.
Proof.
  unfold extract_customer_number, first_or_NA.
  destruct (findall (text_of r)) as [|g l] eqn:Hf; simpl.
  - intros H; inversion H; subst. discriminate.
  - destruct (np_uint64 g) as [v|e] eqn:Hv; simpl; [|discriminate].
    intros H; inversion H; subst. simpl. intros Hn; inversion Hn; subst.
    apply (np_uint64_group g); [|assumption].
    apply (findall_shape (text_of r)). rewrite Hf. now left.
Qed.

(** An identifier that the extraction step delivers is read from seven
    digits of the text that stand behind a non-digit and are not followed
    by a digit. *)
Lemma extracted_identifier_sound r r' n :
  extract_customer_number r = Ok r' ->
  LineItem.Customer_Number r' = Some n ->
  exists g,
    occurs_delimited g (text_of r)
    /\ String.length g = 7%nat
    /\ forallb_string isdigit g = true
    /\ n = digits_value 0 g.
Proof.
  unfold extract_customer_number, first_or_NA.
  destruct (findall (text_of r)) as [|g l] eqn:Hf; simpl.
  - intros H; inversion H; subst. discriminate.
  - destruct (np_uint64 g) as [v|e] eqn:Hv; simpl; [|discriminate].
    intros H; inversion H; subst. simpl. intros Hn; inversion Hn; subst.
    assert (Hin : In g (findall (text_of r))) by (rewrite Hf; now left).
    exists g. split; [exact (findall_context _ _ Hin)|].
    destruct (findall_shape _ _ Hin) as (c & d & -> & _ & Hl & _).
    split; [simpl; now rewrite Hl|].
    unfold np_uint64 in Hv.
    destruct (forallb_string isdigit (String c d)) eqn:Hall; [|discriminate].
    simpl in Hv. inversion Hv. split; reflexivity.
Qed.

(** *** The fallback mask *)

Lemma int_and_bool_cheque b : int_and_bool 48505240 b = false.
Proof. destruct b; reflexivity. Qed.

(** As the expression is parsed, the mask selects every row whose
    offsetting account is not 0, whether or not a number was found in the
    text and whether or not the account is 48505240. *)
Lemma missing_cust_acc_value r :
  missing_cust_acc r = negb (LineItem.Offsetting_Account r =? 0)%Z.
Proof. unfold missing_cust_acc. now rewrite int_and_bool_cheque. Qed.

Lemma fill_from_offsetting_account_value r :
  LineItem.Customer_Number (fill_from_offsetting_account r) =
    if (LineItem.Offsetting_Account r =? 0)%Z then LineItem.Customer_Number r
    else Some (LineItem.Offsetting_Account r).
Proof.
  unfold fill_from_offsetting_account. rewrite missing_cust_acc_value.
  destruct (LineItem.Offsetting_Account r =? 0)%Z; reflexivity.
Qed.

(** *** The table as a whole *)

Lemma mapM_map {A B C : Type} (f : B -> result C) (g : A -> B) : forall l,
  mapM f (map g l) = mapM (fun a => f (g a)) l.
Proof.
  induction l as [|a l IH]; simpl; [reflexivity|]. now rewrite IH.
Qed.

(** [compact_data] works row by row on the concatenation of the batches. *)
Lemma compact_data_rows converted :
  converted <> [] ->
  compact_data converted = mapM compact_row (concat converted).
Proof.
  intros Hne. unfold compact_data.
  destruct converted as [|b bs]; [congruence|].
  cbn [length Nat.eqb]. cbv zeta.
  rewrite mapM_map.
  set (l := concat (b :: bs)). clearbody l.
  induction l as [|a l IH]; [reflexivity|].
  cbn [mapM]. unfold compact_row at 1.
  destruct (extract_customer_number (fillna_Text a)) as [r|e]; simpl; [|reflexivity].
  rewrite <- IH.
  destruct (mapM (fun a0 => extract_customer_number (fillna_Text a0)) l); reflexivity.
Qed.

(** A row whose offsetting account is not 0 leaves [compact_data] with that
    account as its customer number, whatever its text holds and whether or
    not the account is 48505240. *)
Lemma compact_row_offsetting_account r r' :
  compact_row r = Ok r' ->
  0 < LineItem.Offsetting_Account r < 2 ^ 32 ->
  LineItem.Customer_Number r' = Some (LineItem.Offsetting_Account r).
Proof.
  unfold compact_row, extract_customer_number.
  destruct (first_or_NA (findall (text_of (fillna_Text r)))) as [n|e];
    simpl; [|discriminate].
  intros H Hoa; inversion H; subst; clear H.
  unfold cast_customer_number.
  rewrite fill_from_offsetting_account_value. simpl.
  destruct (Z.eqb_spec (LineItem.Offsetting_Account r) 0); [lia|].
  unfold fill_from_offsetting_account. rewrite missing_cust_acc_value. simpl.
  destruct (Z.eqb_spec (LineItem.Offsetting_Account r) 0); [lia|].
  simpl. unfold astype_uint32. now rewrite Z.mod_small by lia.
Qed.

(** A row whose offsetting account is 0 keeps what the extraction found. *)
Lemma compact_row_zero_account r r' :
  compact_row r = Ok r' ->
  LineItem.Offsetting_Account r = 0 ->
  exists r1,
    extract_customer_number (fillna_Text r) = Ok r1
    /\ LineItem.Customer_Number r'
       = option_map astype_uint32 (LineItem.Customer_Number r1).
Proof.
  unfold compact_row.
  destruct (extract_customer_number (fillna_Text r)) as [r1|e] eqn:He;
    simpl; [|discriminate].
  intros H Hoa; inversion H; subst; clear H.
  exists r1. split; [reflexivity|].
  assert (Hoa1 : LineItem.Offsetting_Account r1 = 0).
  { unfold extract_customer_number in He.
    destruct (first_or_NA _); simpl in He; [|discriminate].
    inversion He; subst. exact Hoa. }
  unfold fill_from_offsetting_account. rewrite missing_cust_acc_value, Hoa1.
  simpl. unfold cast_customer_number.
  destruct (LineItem.Customer_Number r1) eqn:E; simpl; [reflexivity|].
  now rewrite E.
Qed.

(** C1 (the code departs from the claim): with no identifier in the text
    and the cheque account 48505240 as offsetting account, [compact_data]
    sets the customer number to 48505240 instead of leaving it absent; with
    the identifier 1234567 in the text and offsetting account 999999, it
    overwrites the extracted 1234567 with 999999.  Only the case "no
    identifier, account 999999" comes out as claimed. *)
Theorem compact_data_fallback_overrides :
  compact_data [[posting "no id here" 48505240]]
    = Ok [LineItem.with_Customer_Number (posting "no id here" 48505240)
            (Some 48505240)]
  /\ compact_data [[posting "ABC 1234567 note" 999999]]
    = Ok [LineItem.with_Customer_Number (posting "ABC 1234567 note" 999999)
            (Some 999999)]
  /\ compact_data [[posting "no id here" 999999]]
    = Ok [LineItem.with_Customer_Number (posting "no id here" 999999)
            (Some 999999)].
Proof. repeat split; vm_compute; reflexivity. Qed.

(** C2 (the code departs from the claim): the extraction step finds
    1234567 in ["ABC 1234567 note"], but the class [[1,4]] of the pattern
    also admits a comma: in ["x,123456 y 1234567 z"] the first match
    captures [",123456"], the conversion of that group raises, and
    [compact_data] fails instead of delivering 1234567. *)
Theorem extraction_first_match_comma :
  extract_customer_number (posting "ABC 1234567 note" 999999)
    = Ok (LineItem.with_Customer_Number (posting "ABC 1234567 note" 999999)
            (Some 1234567))
  /\ findall "x,123456 y 1234567 z" = [",123456"; "1234567"]
  /\ compact_data [[posting "x,123456 y 1234567 z" 999999]]
    = Raise (ValueError "invalid literal for int() with base 10").
Proof. repeat split; vm_compute; reflexivity. Qed.

End ExtractorFacts.

(** ** Bucketing and aggregation *)

Section AggregatorFacts.
Import Aggregator.

(** *** The bins *)

Lemma Qlt_bool_iff x y : Qlt_bool x y = true <-> (x < y)%Q.
Proof.
  unfold Qlt_bool. rewrite negb_true_iff.
  split; intros H.
  - apply Qnot_le_lt. intros Hle. apply Qle_bool_iff in Hle. congruence.
  - apply not_true_is_false. intros Hle. apply Qle_bool_iff in Hle.
    exact (Qlt_not_le _ _ H Hle).
Qed.

Lemma Qlt_bool_false x y : (y <= x)%Q -> Qlt_bool x y = false.
Proof.
  intros H. apply not_true_is_false. intros Hlt. apply Qlt_bool_iff in Hlt.
  exact (Qlt_not_le _ _ Hlt H).
Qed.

Lemma Qle_bool_false x y : (y < x)%Q -> Qle_bool x y = false.
Proof.
  intros H. apply not_true_is_false. intros Hle. apply Qle_bool_iff in Hle.
  exact (Qlt_not_le _ _ H Hle).
Qed.

Lemma cut_under_30 v : (0 < v)%Q -> (v <= 30)%Q -> cut bins labels v = Some "under 30".
Proof.
  intros H0 H30. unfold bins, labels. cbn [cut].
  rewrite (proj2 (Qlt_bool_iff 0 v) H0), (proj2 (Qle_bool_iff v 30) H30).
  reflexivity.
Qed.

Lemma cut_30_50 v : (30 < v)%Q -> (v <= 50)%Q -> cut bins labels v = Some "30 - 50".
Proof.
  intros H30 H50. unfold bins, labels. cbn [cut].
  rewrite (Qle_bool_false v 30 H30), andb_false_r.
  rewrite (proj2 (Qlt_bool_iff 30 v) H30), (proj2 (Qle_bool_iff v 50) H50).
  reflexivity.
Qed.

Lemma cut_over_50 v :
  (50 < v)%Q -> (v <= 999999)%Q -> cut bins labels v = Some "over 50".
Proof.
  intros H50 Hcap. unfold bins, labels. cbn [cut].
  assert (H30 : (30 < v)%Q) by (eapply Qlt_trans; [|exact H50]; reflexivity).
  rewrite (Qle_bool_false v 30 H30), andb_false_r.
  rewrite (Qle_bool_false v 50 H50), andb_false_r.
  rewrite (proj2 (Qlt_bool_iff 50 v) H50), (proj2 (Qle_bool_iff v 999999) Hcap).
  reflexivity.
Qed.

(** Outside [(0, 999999]] a value gets no label. *)
Lemma cut_not_positive v : (v <= 0)%Q -> cut bins labels v = None.
Proof.
  intros H. unfold bins, labels. cbn [cut].
  rewrite (Qlt_bool_false 0 v H).
  rewrite (Qlt_bool_false 30 v) by (eapply Qle_trans; [exact H|discriminate]).
  rewrite (Qlt_bool_false 50 v) by (eapply Qle_trans; [exact H|discriminate]).
  reflexivity.
Qed.

Lemma cut_above_cap v : (999999 < v)%Q -> cut bins labels v = None.
Proof.
  intros H. unfold bins, labels. cbn [cut].
  rewrite (Qle_bool_false v 30) by (eapply Qlt_trans; [|exact H]; reflexivity).
  rewrite (Qle_bool_false v 50) by (eapply Qlt_trans; [|exact H]; reflexivity).
  rewrite (Qle_bool_false v 999999 H).
  rewrite !andb_false_r. reflexivity.
Qed.

(** C5 (the code departs from the claim): the boundaries at 30 and 50 are
    right-closed as claimed, but the absolute amount 0 gets no bucket (the
    lowest edge is open) and neither does an amount above 999999, here
    1000000 (the last edge caps the bucket "over 50"). *)
Theorem cut_misses_zero_and_large :
  cut bins labels 0 = None
  /\ cut bins labels 1000000 = None
  /\ cut bins labels 30 = Some "under 30"
  /\ cut bins labels 50 = Some "30 - 50"
  /\ cut bins labels 999999 = Some "over 50".
Proof. repeat split; vm_compute; reflexivity. Qed.

(** *** Keys, index and columns of the pivot *)

Lemma key_eqb_eq a b : key_eqb a b = true <-> a = b.
Proof.
  destruct a as [[[[[cc gl] y] p] cn] cur], b as [[[[[cc' gl'] y'] p'] cn'] cur'].
  unfold key_eqb. rewrite !andb_true_iff, !String.eqb_eq, !Z.eqb_eq.
  split.
  - intros (((((-> & ->) & ->) & ->) & ->) & ->). reflexivity.
  - intros H; inversion H; subst. repeat split.
Qed.

Lemma key_eqb_refl k : key_eqb k k = true.
Proof. now apply key_eqb_eq. Qed.

Lemma key_eqb_neq a b : key_eqb a b = false <-> a <> b.
Proof.
  rewrite <- key_eqb_eq. destruct (key_eqb a b); split; congruence.
Qed.

Lemma unique_In l k : In k (unique l) <-> In k l.
Proof.
  induction l as [|k' l IH]; [reflexivity|].
  simpl. rewrite filter_In, IH, negb_true_iff, key_eqb_neq.
  split.
  - intros [H|[H _]]; auto.
  - intros [H|H]; [now left|].
    destruct (key_eqb k k') eqn:E.
    + apply key_eqb_eq in E. now left.
    + apply key_eqb_neq in E. now right.
Qed.

Lemma unique_NoDup l : NoDup (unique l).
Proof.
  induction l as [|k l IH]; simpl; constructor.
  - rewrite filter_In, negb_true_iff, key_eqb_neq. intros [_ H]. now apply H.
  - now apply NoDup_filter.
Qed.

Lemma existsb_key k idx : existsb (key_eqb k) idx = true <-> In k idx.
Proof.
  rewrite existsb_exists. split.
  - intros (k' & Hin & Heq). apply key_eqb_eq in Heq. now subst.
  - intros H. exists k. split; [assumption|apply key_eqb_refl].
Qed.

Lemma cut_label : forall edges names x b,
  cut edges names x = Some b -> In b names.
Proof.
  induction edges as [|lo edges IH]; intros names x b H;
    [destruct names; discriminate|].
  destruct edges as [|hi edges]; [destruct names; discriminate|].
  destruct names as [|lab names]; [discriminate|].
  cbn [cut] in H.
  destruct (Qlt_bool lo x && Qle_bool x hi)%bool.
  - inversion H; subst. now left.
  - right. eapply IH; eassumption.
Qed.

Lemma has_label_iff b r : has_label b r = true <-> deduction r = Some b.
Proof.
  unfold has_label. destruct (deduction r) as [b'|].
  - rewrite String.eqb_eq. split; congruence.
  - split; discriminate.
Qed.

Lemma columns_In data r b :
  In r data -> deduction r = Some b -> In b (columns data).
Proof.
  intros Hin Hd. unfold columns. apply filter_In. split.
  - exact (cut_label _ _ _ _ Hd).
  - apply existsb_exists. exists r. split; [assumption|now apply has_label_iff].
Qed.

Lemma columns_NoDup data : NoDup (columns data).
Proof.
  apply NoDup_filter. unfold labels.
  repeat constructor; simpl; intuition discriminate.
Qed.

(** *** The rows of one index in the output *)

Lemma stacked_row_key data k b : agg_key (stacked_row data k b) = k.
Proof. destruct k as [[[[[cc gl] y] p] cn] cur]. reflexivity. Qed.

Lemma stacked_row_total data k b :
  Agg.Deductions_Total (stacked_row data k b)
  = sumQ (map LineItem.LC_Amount (group data k b)).
Proof. destruct k as [[[[[cc gl] y] p] cn] cur]. reflexivity. Qed.

Lemma stacked_row_count data k b :
  Agg.Deductions_Count (stacked_row data k b)
  = astype_uint16 (Z.of_nat (length (group data k b))).
Proof. destruct k as [[[[[cc gl] y] p] cn] cur]. reflexivity. Qed.

Lemma rows_of_key_cell data cols k k' :
  rows_of_key (map (stacked_row data k') cols) k
  = if key_eqb k' k then map (stacked_row data k') cols else [].
Proof.
  unfold rows_of_key. induction cols as [|b cols IH]; cbn [map filter].
  - now destruct (key_eqb k' k).
  - rewrite stacked_row_key, IH. now destruct (key_eqb k' k).
Qed.

Lemma rows_of_key_stacked data cols k : forall idx,
  NoDup idx ->
  rows_of_key (flat_map (fun k' => map (stacked_row data k') cols) idx) k
  = if existsb (key_eqb k) idx then map (stacked_row data k) cols else [].
Proof.
  induction idx as [|k' idx IH]; intros Hnd; [reflexivity|].
  inversion Hnd as [|? ? Hnotin Hnd']; subst.
  cbn [flat_map existsb]. unfold rows_of_key in *.
  rewrite filter_app. fold (rows_of_key (map (stacked_row data k') cols) k).
  rewrite rows_of_key_cell, (IH Hnd').
  destruct (key_eqb k' k) eqn:E.
  - apply key_eqb_eq in E. subst k'. rewrite key_eqb_refl. simpl.
    destruct (existsb (key_eqb k) idx) eqn:Ex.
    + apply existsb_key in Ex. contradiction.
    + apply app_nil_r.
  - assert (E' : key_eqb k k' = false).
    { apply key_eqb_neq. apply key_eqb_neq in E. congruence. }
    rewrite E'. reflexivity.
Qed.

Lemma aggregate_rows_of_key data stacked k :
  _aggregate_data data = Ok stacked ->
  rows_of_key stacked k
  = if existsb (key_eqb k) (index data)
    then map (stacked_row data k) (columns data) else [].
Proof.
  unfold _aggregate_data. destruct (columns data) as [|c cols] eqn:Hc;
    [discriminate|].
  intros H; inversion H; subst; clear H.
  apply (rows_of_key_stacked data (c :: cols)). apply unique_NoDup.
Qed.

Lemma index_absent data k :
  existsb (key_eqb k) (index data) = false -> binned_items_of_key data k = [].
Proof.
  intros H. unfold binned_items_of_key.
  destruct (filter _ data) as [|r l] eqn:Hf; [reflexivity|].
  assert (Hin : In r (filter (fun r => (key_eqb (key_of r) k && notna (deduction r))%bool) data))
    by (rewrite Hf; now left).
  apply filter_In in Hin as [Hin Hp]. apply andb_true_iff in Hp as [Hk Hb].
  apply key_eqb_eq in Hk.
  assert (Hidx : In k (index data)).
  { unfold index. apply unique_In. rewrite <- Hk. apply in_map.
    apply filter_In. split; assumption. }
  apply existsb_key in Hidx. congruence.
Qed.

(** *** A row is counted under exactly one column *)

Lemma group_cons r l k b :
  group (r :: l) k b =
    if (key_eqb (key_of r) k && has_label b r)%bool then r :: group l k b
    else group l k b.
Proof. reflexivity. Qed.

Lemma sumQ_zeros {A : Type} (l : list A) : (sumQ (map (fun _ => 0) l) == 0)%Q.
Proof.
  induction l as [|a l IH]; simpl; [reflexivity|]. rewrite IH. ring.
Qed.

Lemma sumQ_one_column (x : Q) (f : string -> Q) b0 : forall cols,
  NoDup cols -> In b0 cols ->
  (sumQ (map (fun b => if String.eqb b0 b then x + f b else f b) cols)
   == x + sumQ (map f cols))%Q.
Proof.
  induction cols as [|c cols IH]; intros Hnd Hin; [contradiction|].
  inversion Hnd as [|? ? Hnotin Hnd']; subst. cbn [map sumQ].
  destruct (String.eqb_spec b0 c) as [->|Hne].
  - assert (Hrest : map (fun b => if String.eqb c b then (x + f b)%Q else f b) cols
                    = map f cols).
    { apply map_ext_in. intros b Hb.
      destruct (String.eqb_spec c b); [subst; contradiction|reflexivity]. }
    rewrite Hrest. ring.
  - destruct Hin as [->|Hin]; [congruence|].
    rewrite (IH Hnd' Hin). ring.
Qed.

Lemma sumZ_one_column (x : Z) (f : string -> Z) b0 : forall cols,
  NoDup cols -> In b0 cols ->
  sumZ (map (fun b => if String.eqb b0 b then x + f b else f b) cols)
  = x + sumZ (map f cols).
Proof.
  induction cols as [|c cols IH]; intros Hnd Hin; [contradiction|].
  inversion Hnd as [|? ? Hnotin Hnd']; subst. cbn [map sumZ].
  destruct (String.eqb_spec b0 c) as [->|Hne].
  - assert (Hrest : map (fun b => if String.eqb c b then x + f b else f b) cols
                    = map f cols).
    { apply map_ext_in. intros b Hb.
      destruct (String.eqb_spec c b); [subst; contradiction|reflexivity]. }
    rewrite Hrest. lia.
  - destruct Hin as [->|Hin]; [congruence|].
    rewrite (IH Hnd' Hin). lia.
Qed.

Lemma has_label_eqb r b0 b : deduction r = Some b0 -> has_label b r = String.eqb b0 b.
Proof. unfold has_label. now intros ->. Qed.

Lemma has_label_none r b : deduction r = None -> has_label b r = false.
Proof. unfold has_label. now intros ->. Qed.

(** The cells of an index, summed over the columns, hold every binned row
    of the index once. *)
Lemma total_over_columns (w : LineItem.row -> Q) cols k :
  NoDup cols -> forall l,
  (forall r b, In r l -> deduction r = Some b -> In b cols) ->
  (sumQ (map (fun b => sumQ (map w (group l k b))) cols)
   == sumQ (map w (binned_items_of_key l k)))%Q.
Proof.
  intros Hnd. induction l as [|r l IH]; intros Hcols.
  - cbn. apply sumQ_zeros.
  - assert (IH' := IH (fun r' b Hin => Hcols r' b (or_intror Hin))). clear IH.
    unfold binned_items_of_key in *. cbn [filter].
    destruct (key_eqb (key_of r) k) eqn:Hk; cbn [andb].
    + destruct (deduction r) as [b0|] eqn:Hd; cbn [notna isna negb].
      * rewrite (map_ext _ (fun b => if String.eqb b0 b
                                     then (w r + sumQ (map w (group l k b)))%Q
                                     else sumQ (map w (group l k b)))).
        2:{ intros b. rewrite group_cons, Hk, (has_label_eqb r b0 b Hd).
            now destruct (String.eqb b0 b). }
        rewrite sumQ_one_column;
          [|assumption|exact (Hcols r b0 (or_introl eq_refl) Hd)].
        cbn [map sumQ]. now rewrite IH'.
      * rewrite (map_ext _ (fun b => sumQ (map w (group l k b)))); [exact IH'|].
        intros b. now rewrite group_cons, Hk, (has_label_none r b Hd).
    + rewrite (map_ext _ (fun b => sumQ (map w (group l k b)))); [exact IH'|].
      intros b. now rewrite group_cons, Hk.
Qed.

Lemma count_over_columns cols k :
  NoDup cols -> forall l,
  (forall r b, In r l -> deduction r = Some b -> In b cols) ->
  sumZ (map (fun b => Z.of_nat (length (group l k b))) cols)
  = Z.of_nat (length (binned_items_of_key l k)).
Proof.
  intros Hnd. induction l as [|r l IH]; intros Hcols.
  - cbn. induction cols as [|c cols IHc]; [reflexivity|].
    inversion Hnd; subst. cbn. now apply IHc.
  - assert (IH' := IH (fun r' b Hin => Hcols r' b (or_intror Hin))). clear IH.
    unfold binned_items_of_key in *. cbn [filter].
    destruct (key_eqb (key_of r) k) eqn:Hk; cbn [andb].
    + destruct (deduction r) as [b0|] eqn:Hd; cbn [notna isna negb].
      * rewrite (map_ext _ (fun b => if String.eqb b0 b
                                     then 1 + Z.of_nat (length (group l k b))
                                     else Z.of_nat (length (group l k b)))).
        2:{ intros b. rewrite group_cons, Hk, (has_label_eqb r b0 b Hd).
            destruct (String.eqb b0 b); cbn [andb length]; lia. }
        rewrite sumZ_one_column;
          [|assumption|exact (Hcols r b0 (or_introl eq_refl) Hd)].
        cbn [length]. lia.
      * rewrite (map_ext _ (fun b => Z.of_nat (length (group l k b)))); [exact IH'|].
        intros b. now rewrite group_cons, Hk, (has_label_none r b Hd).
    + rewrite (map_ext _ (fun b => Z.of_nat (length (group l k b)))); [exact IH'|].
      intros b. now rewrite group_cons, Hk.
Qed.

(** *** What the aggregation delivers for an index *)

(** The totals of an index, summed over its buckets, are the signed
    amounts of those rows of the index that fall into a bin. *)
Lemma bucket_totals data stacked k :
  _aggregate_data data = Ok stacked ->
  (Deductions_Total_of_key stacked k
   == sumQ (map LineItem.LC_Amount (binned_items_of_key data k)))%Q.
Proof.
  intros H. unfold Deductions_Total_of_key.
  rewrite (aggregate_rows_of_key data stacked k H).
  destruct (existsb (key_eqb k) (index data)) eqn:Ex.
  - rewrite map_map.
    rewrite (map_ext _ (fun b => sumQ (map LineItem.LC_Amount (group data k b))))
      by (intros; apply stacked_row_total).
    apply total_over_columns; [apply columns_NoDup|].
    intros r b. apply columns_In.
  - rewrite (index_absent data k Ex). reflexivity.
Qed.

Lemma group_length data k b : (length (group data k b) <= length data)%nat.
Proof. apply filter_length_le. Qed.

Lemma astype_uint16_small n : 0 <= n < 65536 -> astype_uint16 n = n.
Proof. intros H. unfold astype_uint16. apply Z.mod_small. lia. Qed.

(** The counts of an index, summed over its buckets, are the number of
    those rows of the index that fall into a bin, as long as the 16-bit
    counters do not wrap. *)
Lemma bucket_counts data stacked k :
  Z.of_nat (length data) < 65536 ->
  _aggregate_data data = Ok stacked ->
  Deductions_Count_of_key stacked k
  = Z.of_nat (length (binned_items_of_key data k)).
Proof.
  intros Hlen H. unfold Deductions_Count_of_key.
  rewrite (aggregate_rows_of_key data stacked k H).
  destruct (existsb (key_eqb k) (index data)) eqn:Ex.
  - rewrite map_map.
    rewrite (map_ext _ (fun b => Z.of_nat (length (group data k b)))).
    + apply count_over_columns; [apply columns_NoDup|].
      intros r b. apply columns_In.
    + intros b. rewrite stacked_row_count. apply astype_uint16_small.
      pose proof (group_length data k b). lia.
  - rewrite (index_absent data k Ex). reflexivity.
Qed.

Lemma all_binned_items data k :
  (forall r, In r data -> deduction r <> None) ->
  binned_items_of_key data k = items_of_key data k.
Proof.
  intros Hall. unfold binned_items_of_key, items_of_key.
  apply filter_ext_in. intros r Hin.
  destruct (deduction r) eqn:Hd; [now rewrite andb_true_r|].
  now elim (Hall r Hin).
Qed.

(** When every absolute amount lies in [(0, 999999]], the totals and the
    counts of an index are those of all its rows. *)
Lemma bucket_totals_all_binned data stacked k :
  (forall r, In r data -> deduction r <> None) ->
  _aggregate_data data = Ok stacked ->
  (Deductions_Total_of_key stacked k == LC_Amount_of_key data k)%Q.
Proof.
  intros Hall H. unfold LC_Amount_of_key.
  rewrite <- (all_binned_items data k Hall). now apply bucket_totals.
Qed.

Lemma bucket_counts_all_binned data stacked k :
  (forall r, In r data -> deduction r <> None) ->
  Z.of_nat (length data) < 65536 ->
  _aggregate_data data = Ok stacked ->
  Deductions_Count_of_key stacked k = Z.of_nat (length (items_of_key data k)).
Proof.
  intros Hall Hlen H.
  rewrite <- (all_binned_items data k Hall). now apply bucket_counts.
Qed.

(** C3 (the code departs from the claim): two rows of one index with the
    amounts 1000000 and 10.  The first lies above the last bin edge, gets
    no bucket and is left out of the pivot: the totals of the index sum to
    10, the signed amounts of its rows to 1000010. *)
Theorem bucket_totals_drop_large_amount :
  exists stacked,
    _aggregate_data large_amount_table = Ok stacked
    /\ (Deductions_Total_of_key stacked (key_0075 1000001) == 10)%Q
    /\ (LC_Amount_of_key large_amount_table (key_0075 1000001) == 1000010)%Q.
Proof.
  eexists. split; [vm_compute; reflexivity|].
  split; vm_compute; reflexivity.
Qed.

(** C4 (the code departs from the claim): two rows of one index with the
    amounts 0 and 10.  The absolute amount 0 is assigned to none of the
    three buckets and the row is left out of the pivot: the counts of the
    index sum to 1, while 2 rows map to it. *)
Theorem bucket_counts_drop_zero_amount :
  map deduction zero_amount_table = [None; Some "under 30"]
  /\ exists stacked,
    _aggregate_data zero_amount_table = Ok stacked
    /\ Deductions_Count_of_key stacked (key_0075 1000001) = 1
    /\ length (items_of_key zero_amount_table (key_0075 1000001)) = 2%nat.
Proof.
  split; [reflexivity|].
  eexists. split; [vm_compute; reflexivity|].
  split; vm_compute; reflexivity.
Qed.

End AggregatorFacts.

(** ** Customer-name resolution *)

Section ResolverFacts.
Import Resolver.

(** *** Left merges keep every left row *)

Lemma merge_left_cons {A B : Type} (on : A -> B -> bool) a left right :
  merge_left on (a :: left) right
  = (match filter (on a) right with
     | [] => [(a, None)]
     | found => map (fun b => (a, Some b)) found
     end ++ merge_left on left right)%list.
Proof. reflexivity. Qed.

Lemma merge_left_length {A B : Type} (on : A -> B -> bool) right : forall left,
  (length left <= length (merge_left on left right))%nat.
Proof.
  induction left as [|a left IH]; [reflexivity|].
  rewrite merge_left_cons, length_app.
  destruct (filter (on a) right); cbn [length map]; lia.
Qed.

(** A left merge that does not add rows pairs each left row with its only
    match, if it has one. *)
Lemma merge_left_exact {A B : Type} (on : A -> B -> bool) right : forall left,
  length (merge_left on left right) = length left ->
  merge_left on left right
    = map (fun a => (a, hd_error (filter (on a) right))) left
  /\ Forall (fun a => (length (filter (on a) right) <= 1)%nat) left.
Proof.
  induction left as [|a left IH]; intros Hlen; [split; [reflexivity|constructor]|].
  pose proof (merge_left_length on right left) as Hge.
  rewrite merge_left_cons in *. rewrite length_app in Hlen.
  cbn [map]. 
  destruct (filter (on a) right) as [|b [|b' found]] eqn:Hf;
    cbn [length map app hd_error] in *.
  - assert (Hl : length (merge_left on left right) = length left) by lia.
    destruct (IH Hl) as [IH1 IH2]. rewrite IH1.
    split; [reflexivity|]. constructor; [rewrite Hf; simpl; lia|assumption].
  - assert (Hl : length (merge_left on left right) = length left) by lia.
    destruct (IH Hl) as [IH1 IH2]. rewrite IH1.
    split; [reflexivity|]. constructor; [rewrite Hf; simpl; lia|assumption].
  - rewrite length_map in Hlen. lia.
Qed.

Lemma renamed_length aggregated cust_data :
  length (renamed aggregated cust_data)
  = length (updated_hd_off aggregated cust_data).
Proof. apply length_map. Qed.

Lemma renamed_keeps_rows aggregated cust_data :
  (length aggregated <= length (renamed aggregated cust_data))%nat.
Proof.
  rewrite renamed_length. unfold updated_hd_off, updated_cust_num.
  etransitivity; [|apply merge_left_length]. apply merge_left_length.
Qed.

(** C7: [compact_data] raises on an empty list of batches and
    [assign_customers] raises on an empty table, whatever the customer
    master; neither returns a result. *)
Theorem empty_input_rejected :
  Extractor.compact_data []
    = Raise (ValueError "The input data contains no records!")
  /\ forall cust_data,
       assign_customers [] cust_data
         = Raise (ValueError "Input data contains no records!").
Proof. split; [reflexivity|]. intros cust_data. reflexivity. Qed.

Lemma assign_customers_nonempty compacted cust_data aggregated :
  compacted <> [] ->
  Aggregator._aggregate_data compacted = Ok aggregated ->
  assign_customers compacted cust_data
  = if (length aggregated =? length (renamed aggregated cust_data))%nat
    then Ok (renamed aggregated cust_data)
    else Raise (AssertionError "Input and output data rows not equal!").
Proof.
  intros Hne Hagg. unfold assign_customers.
  destruct compacted as [|r l]; [congruence|]. now rewrite Hagg.
Qed.

(** What the assertion of line 174 decides: for a non-empty table whose
    aggregation is [aggregated], the two merges never drop a row; either
    they add none and [assign_customers] returns the merged table, which
    has as many rows as [aggregated], or they fan out and
    [assign_customers] aborts with the assertion failure. *)
Theorem assign_customers_row_count compacted cust_data aggregated :
  compacted <> [] ->
  Aggregator._aggregate_data compacted = Ok aggregated ->
  (length aggregated <= length (renamed aggregated cust_data))%nat
  /\ ((length (renamed aggregated cust_data) = length aggregated
       /\ assign_customers compacted cust_data
          = Ok (renamed aggregated cust_data))
      \/ ((length aggregated < length (renamed aggregated cust_data))%nat
          /\ assign_customers compacted cust_data
             = Raise (AssertionError "Input and output data rows not equal!"))).
Proof.
  intros Hne Hagg.
  pose proof (renamed_keeps_rows aggregated cust_data) as Hge.
  split; [exact Hge|].
  rewrite (assign_customers_nonempty _ _ _ Hne Hagg).
  destruct (Nat.eqb_spec (length aggregated)
              (length (renamed aggregated cust_data))) as [E|E].
  - left. split; [symmetry; exact E|reflexivity].
  - right. split; [lia|reflexivity].
Qed.

Lemma assign_customers_row_count_witness :
  postings_of 1000001 <> []
  /\ (exists aggregated,
        Aggregator._aggregate_data (postings_of 1000001) = Ok aggregated
        /\ length (renamed aggregated master) = length aggregated
        /\ assign_customers (postings_of 1000001) master
           = Ok (renamed aggregated master)).
Proof.
  split; [discriminate|].
  eexists. split; [vm_compute; reflexivity|].
  destruct (assign_customers_row_count (postings_of 1000001) master _
              ltac:(discriminate) eq_refl) as [_ [H|[H _]]].
  - exact H.
  - vm_compute in H. lia.
Defined.

(** C8: the returned table is to have as many rows as the aggregated one,
    the joins adding none; the code does not achieve it on an ordinary
    master.  Customer 4000001 is the head office of two branches with
    different names.  [drop_duplicates] (line 163) runs on the pairs of
    head office and name and keeps both, so the second merge pairs the one
    aggregated row with both names: the merged table has 2 rows for 1
    aggregated row, the assertion of line 174 fails and [assign_customers]
    returns nothing. *)
Lemma merges_fan_out_on_head_office :
  exists aggregated,
    Aggregator._aggregate_data (postings_of 4000001) = Ok aggregated
    /\ length aggregated = 1%nat
    /\ length (renamed aggregated master) = 2%nat
    /\ assign_customers (postings_of 4000001) master
       = Raise (AssertionError "Input and output data rows not equal!").
Proof.
  eexists. split; [vm_compute; reflexivity|].
  repeat split; vm_compute; reflexivity.
Qed.

(** *** The name that is kept *)

Lemma merge_names_value name_x name_y :
  merge_names name_x name_y
  = match name_x with
    | Some n => Some n
    | None => name_y
    end.
Proof. now destruct name_x. Qed.

(** When [assign_customers] returns, no merge has added a row, and each
    aggregated row carries the names of its only matches. *)
Lemma assign_customers_rows compacted cust_data resolved :
  assign_customers compacted cust_data = Ok resolved ->
  exists aggregated,
    Aggregator._aggregate_data compacted = Ok aggregated
    /\ resolved
       = map (fun a =>
                Processed.mk a (head_office_y (head_office_match cust_data a))
                  (merge_names (branch_name cust_data a)
                     (head_office_name cust_data a)))
           aggregated
    /\ Forall (fun a =>
         (length (filter (on_branch a) (branch_table cust_data)) <= 1)%nat)
         aggregated.
Proof.
  unfold assign_customers. destruct compacted as [|r l]; [discriminate|].
  destruct (Aggregator._aggregate_data (r :: l)) as [aggregated|e];
    cbn [bind]; [|discriminate].
  destruct (Nat.eqb_spec (length aggregated)
              (length (renamed aggregated cust_data))) as [E|E]; [|discriminate].
  intros H; inversion H; subst; clear H.
  exists aggregated. split; [reflexivity|].
  rewrite renamed_length in E. unfold renamed, updated_hd_off in *.
  pose proof (merge_left_length on_branch (branch_table cust_data) aggregated) as H1.
  pose proof (merge_left_length on_head_office (head_office_table cust_data)
                (updated_cust_num aggregated cust_data)) as H2.
  unfold updated_cust_num in *.
  destruct (merge_left_exact on_head_office (head_office_table cust_data)
              (merge_left on_branch aggregated (branch_table cust_data)))
    as [E2 _]; [lia|].
  destruct (merge_left_exact on_branch (branch_table cust_data) aggregated)
    as [E1 F1]; [lia|].
  split; [|exact F1].
  rewrite E2, E1, !map_map. reflexivity.
Qed.

Lemma branch_table_In cust_data c b n cc :
  In c cust_data ->
  Customer.branch_number c = Some b ->
  Customer.Customer_Name c = Some n ->
  Customer.Company_Code c = Some cc ->
  In (b, n, cc) (branch_table cust_data).
Proof.
  intros Hin Hb Hn Hcc. unfold branch_table. apply in_flat_map.
  exists c. split; [assumption|]. rewrite Hb, Hn, Hcc. now left.
Qed.

Lemma only_match {B : Type} (p : B -> bool) (l : list B) b :
  (length (filter p l) <= 1)%nat -> In b l -> p b = true ->
  hd_error (filter p l) = Some b.
Proof.
  intros Hlen Hin Hp.
  assert (Hf : In b (filter p l)) by (apply filter_In; auto).
  destruct (filter p l) as [|b' [|b'' rest]]; simpl in *.
  - contradiction.
  - destruct Hf as [->|[]]. reflexivity.
  - lia.
Qed.

(** C9: in the table [assign_customers] returns, every row is an aggregated
    row with the name of the first merge (branch number and company code)
    when there is one, otherwise the name of the second merge (head office)
    when there is one, otherwise no name; and a row whose customer number
    and company code are those of a named branch row of the master carries
    that branch name, whatever name the master holds for a head office of
    the same number. *)
Theorem assign_customers_name_preference compacted cust_data resolved :
  assign_customers compacted cust_data = Ok resolved ->
  (exists aggregated,
     Aggregator._aggregate_data compacted = Ok aggregated
     /\ map Processed.base resolved = aggregated)
  /\ (forall r, In r resolved ->
        Processed.Customer_Name r
        = match branch_name cust_data (Processed.base r) with
          | Some n => Some n
          | None => head_office_name cust_data (Processed.base r)
          end)
  /\ (forall r c b n,
        In r resolved -> In c cust_data ->
        Customer.branch_number c = Some b ->
        Agg.Customer_Number (Processed.base r) = Some b ->
        Customer.Company_Code c = Some (Agg.Company_Code (Processed.base r)) ->
        Customer.Customer_Name c = Some n ->
        Processed.Customer_Name r = Some n).
Proof.
  intros H. destruct (assign_customers_rows _ _ _ H) as (aggregated & Hagg & -> & F1).
  split; [|split].
  - exists aggregated. split; [assumption|].
    rewrite map_map. cbn [Processed.base]. apply map_id.
  - intros r Hr. apply in_map_iff in Hr as (a & <- & _).
    cbn [Processed.Customer_Name Processed.base]. apply merge_names_value.
  - intros r c b n Hr Hc Hb Hcn Hcc Hn.
    apply in_map_iff in Hr as (a & <- & Ha).
    cbn [Processed.Customer_Name Processed.base] in *.
    rewrite Forall_forall in F1. specialize (F1 a Ha).
    pose proof (branch_table_In _ _ _ _ _ Hc Hb Hn Hcc) as Hin.
    assert (Hon : on_branch a (b, n, Agg.Company_Code a) = true).
    { unfold on_branch. rewrite Hcn. cbn [opt_Z_eqb].
      now rewrite Z.eqb_refl, String.eqb_refl. }
    unfold branch_name. rewrite (only_match _ _ _ F1 Hin Hon).
    reflexivity.
Qed.

Lemma assign_customers_name_preference_witness :
  (exists r,
     assign_customers (postings_of 1000001) master_both = Ok [r]
     /\ head_office_name master_both (Processed.base r) = Some "Head office"
     /\ Processed.Customer_Name r = Some "Branch").
Proof.
  eexists. split; [vm_compute; reflexivity|].
  split; [reflexivity|].
  refine (proj2 (proj2 (assign_customers_name_preference
                          (postings_of 1000001) master_both _ eq_refl))
            _ (Customer.mk (Some 4000001) (Some 1000001) (Some "Branch")
                 (Some "0075")) 1000001 "Branch" _ _ _ _ _ _);
    try reflexivity; now left.
Defined.

End ResolverFacts.

(** ** The report writer's post-processing *)

Section ReportFacts.
Import Report.

Lemma blank_processed_number r :
  Agg.Customer_Number (Processed.base (blank_processed r)) <> Some 0.
Proof.
  unfold blank_processed.
  destruct (Agg.Customer_Number (Processed.base r)) as [n|] eqn:E; cbn [is_zero].
  - destruct (Z.eqb_spec n 0) as [->|Hn]; [discriminate|].
    rewrite E. congruence.
  - rewrite E. discriminate.
Qed.

Lemma blank_exported_number r :
  LineItem.Customer_Number (blank_exported r) <> Some 0.
Proof.
  unfold blank_exported.
  destruct (LineItem.Customer_Number r) as [n|] eqn:E; cbn [is_zero].
  - destruct (Z.eqb_spec n 0) as [->|Hn]; [discriminate|].
    rewrite E. congruence.
  - rewrite E. discriminate.
Qed.

(** Putting the old number back gives the old row: no other field of the
    row has changed. *)
Lemma blank_processed_frame r :
  Processed.with_Customer_Number (blank_processed r)
    (Agg.Customer_Number (Processed.base r)) = r.
Proof.
  destruct r as [[cc gl y p cn cur d c t] h n]. unfold blank_processed.
  cbn. destruct (is_zero cn); reflexivity.
Qed.

Lemma blank_exported_frame r :
  LineItem.with_Customer_Number (blank_exported r) (LineItem.Customer_Number r)
  = r.
Proof.
  destruct r. unfold blank_exported. cbn.
  match goal with |- context [is_zero ?n] => destruct (is_zero n) end;
    reflexivity.
Qed.

(** Only a number 0 is touched. *)
Lemma blank_processed_other r :
  Agg.Customer_Number (Processed.base r) <> Some 0 -> blank_processed r = r.
Proof.
  unfold blank_processed.
  destruct (Agg.Customer_Number (Processed.base r)) as [n|]; cbn [is_zero];
    [|reflexivity].
  destruct (Z.eqb_spec n 0) as [->|]; [congruence|reflexivity].
Qed.

Lemma blank_exported_other r :
  LineItem.Customer_Number r <> Some 0 -> blank_exported r = r.
Proof.
  unfold blank_exported.
  destruct (LineItem.Customer_Number r) as [n|]; cbn [is_zero]; [|reflexivity].
  destruct (Z.eqb_spec n 0) as [->|]; [congruence|reflexivity].
Qed.

(** C10, the claim as stated fails: with a customer number 0 in the
    processed table and an empty exported table the call raises at its
    second guard, before the assignments, and the caller's processed table
    still holds the 0. *)
Lemma guard_leaves_zero_in_place :
  generate_excel_report writer_ok tables_exported_empty
    = (Raise (ValueError "The exported data contains no records!"),
       tables_exported_empty)
  /\ map (fun r => Agg.Customer_Number (Processed.base r))
       (processed tables_exported_empty) = [Some 0].
Proof. split; reflexivity. Qed.

Lemma generate_excel_report_nonempty writer tables :
  processed tables <> [] -> exported tables <> [] ->
  generate_excel_report writer tables
  = (writer (map blank_processed (processed tables))
       (map blank_exported (exported tables)),
     mk (map blank_processed (processed tables))
        (map blank_exported (exported tables))).
Proof.
  unfold generate_excel_report. intros Hp He.
  destruct (processed tables); [congruence|].
  destruct (exported tables); [congruence|]. reflexivity.
Qed.

Lemma generate_excel_report_empty writer tables :
  processed tables = [] \/ exported tables = [] ->
  exists msg,
    generate_excel_report writer tables = (Raise (ValueError msg), tables).
Proof.
  unfold generate_excel_report. intros [H|H].
  - rewrite H. eexists; reflexivity.
  - rewrite H. destruct (processed tables); eexists; reflexivity.
Qed.

(** C10 (as amended): a call on two non-empty tables replaces, in both
    tables of the caller and before the writer runs, every customer number
    0 by the absent value: afterwards no row of either table has customer
    number 0, both tables have the rows they had, each row differs from
    what it was in its customer number at most, and the writer has received
    the tables in that state.  A call with an empty table raises a
    [ValueError] and leaves both tables as they were. *)
Theorem generate_excel_report_blanks_zero writer tables outcome after :
  generate_excel_report writer tables = (outcome, after) ->
  (processed tables <> [] -> exported tables <> [] ->
     processed after = map blank_processed (processed tables)
     /\ exported after = map blank_exported (exported tables)
     /\ outcome = writer (processed after) (exported after)
     /\ length (processed after) = length (processed tables)
     /\ length (exported after) = length (exported tables)
     /\ (forall r, In r (processed after) ->
           Agg.Customer_Number (Processed.base r) <> Some 0)
     /\ (forall r, In r (exported after) ->
           LineItem.Customer_Number r <> Some 0)
     /\ Forall2
          (fun r r' =>
             Processed.with_Customer_Number r'
               (Agg.Customer_Number (Processed.base r)) = r
             /\ (Agg.Customer_Number (Processed.base r) <> Some 0 -> r' = r))
          (processed tables) (processed after)
     /\ Forall2
          (fun r r' =>
             LineItem.with_Customer_Number r' (LineItem.Customer_Number r) = r
             /\ (LineItem.Customer_Number r <> Some 0 -> r' = r))
          (exported tables) (exported after))
  /\ (processed tables = [] \/ exported tables = [] ->
      after = tables /\ exists msg, outcome = Raise (ValueError msg)).
Proof.
  intros H. split.
  - intros Hp He. rewrite (generate_excel_report_nonempty _ _ Hp He) in H.
    inversion H; subst; clear H. cbn [processed exported].
    do 3 (split; [reflexivity|]).
    do 2 (split; [apply length_map|]).
    split; [|split; [|split]].
    + intros r Hr. apply in_map_iff in Hr as (r0 & <- & _).
      apply blank_processed_number.
    + intros r Hr. apply in_map_iff in Hr as (r0 & <- & _).
      apply blank_exported_number.
    + clear Hp. induction (processed tables) as [|a l IH]; constructor;
        [|assumption].
      split; [apply blank_processed_frame|apply blank_processed_other].
    + clear He. induction (exported tables) as [|a l IH]; constructor;
        [|assumption].
      split; [apply blank_exported_frame|apply blank_exported_other].
  - intros Hempty.
    destruct (generate_excel_report_empty writer tables Hempty) as (msg & Hg).
    rewrite Hg in H. inversion H; subst.
    split; [reflexivity|]. now exists msg.
Qed.

Lemma generate_excel_report_blanks_zero_witness :
  generate_excel_report writer_ok tables_with_zero
    = (Ok "report.xlsm",
       mk [Processed.with_Customer_Number unassigned_row None; assigned_row]
          [Aggregator.item None 10%Q; Aggregator.item None 15%Q])
  /\ map (fun r => Agg.Customer_Number (Processed.base r))
       (processed (snd (generate_excel_report writer_ok tables_with_zero)))
     = [None; Some 1000001]
  /\ forall r,
       In r (processed (snd (generate_excel_report writer_ok tables_with_zero))) ->
       Agg.Customer_Number (Processed.base r) <> Some 0.
Proof.
  split; [reflexivity|]. split; [reflexivity|].
  refine (proj1 (proj2 (proj2 (proj2 (proj2 (proj2
    (proj1 (generate_excel_report_blanks_zero writer_ok tables_with_zero
              _ _ eq_refl) _ _))))))); discriminate.
Defined.

End ReportFacts.

(** ** Further properties of [compact_data] *)

Section CompactedFacts.
Import Extractor Compacted.

Lemma mapM_Forall2 {A B : Type} (f : A -> result B) : forall l l',
  mapM f l = Ok l' -> Forall2 (fun a b => f a = Ok b) l l'.
Proof.
  induction l as [|a l IH]; intros l' H; simpl in H.
  - inversion H. constructor.
  - destruct (f a) as [b|e] eqn:Hb; simpl in H; [|discriminate].
    destruct (mapM f l) as [bs|e] eqn:Hbs; simpl in H; [|discriminate].
    inversion H; subst. constructor; [assumption|now apply IH].
Qed.

Lemma compact_data_Ok converted data :
  compact_data converted = Ok data ->
  Forall2 (fun r r' => compact_row r = Ok r') (concat converted) data.
Proof.
  intros H. destruct converted as [|b bs]; [discriminate|].
  rewrite compact_data_rows in H by discriminate.
  now apply mapM_Forall2.
Qed.

Lemma compact_row_same_posting r r' :
  compact_row r = Ok r' -> same_posting r r'.
Proof.
  unfold compact_row, extract_customer_number.
  destruct (first_or_NA (findall (text_of (fillna_Text r)))) as [n|e];
    simpl; [|discriminate].
  intros H; inversion H; subst; clear H.
  unfold same_posting, cast_customer_number, fill_from_offsetting_account.
  destruct r as [cur cc gl y p dt oa oat amt txt cn]. cbn.
  destruct (missing_cust_acc _); cbn; repeat split; destruct n; reflexivity.
Qed.

(** X1: when [compact_data] returns, its table has one row for each row of
    the batches, in the order of the batches and of the rows within them,
    and each row agrees with the one it comes from on all ten columns of
    [convert_data], a missing text having become the empty string. *)
Theorem compact_data_keeps_postings converted data :
  compact_data converted = Ok data ->
  length data = length (concat converted)
  /\ Forall2 same_posting (concat converted) data.
Proof.
  intros H. apply compact_data_Ok in H.
  split; [symmetry; exact (Forall2_length H)|].
  induction H; constructor; [now apply compact_row_same_posting|assumption].
Qed.

Lemma compact_data_keeps_postings_witness :
  (exists data,
     compact_data two_batches = Ok data
     /\ length data = 3%nat
     /\ Forall2 same_posting (concat two_batches) data).
Proof.
  eexists. split; [vm_compute; reflexivity|].
  split; [reflexivity|].
  exact (proj2 (compact_data_keeps_postings two_batches _ eq_refl)).
Defined.

Lemma compact_row_uint32 r r' n :
  compact_row r = Ok r' -> LineItem.Customer_Number r' = Some n ->
  0 <= n < 2 ^ 32.
Proof.
  unfold compact_row.
  destruct (extract_customer_number (fillna_Text r)) as [r1|e];
    simpl; [|discriminate].
  intros H; inversion H; subst; clear H.
  unfold cast_customer_number.
  destruct (LineItem.Customer_Number (fill_from_offsetting_account r1)) as [m|] eqn:E.
  - simpl. intros Hn; inversion Hn; subst. unfold astype_uint32.
    apply Z.mod_pos_bound. lia.
  - rewrite E. discriminate.
Qed.

(** X2: every customer number in the table [compact_data] returns lies in
    the range of an unsigned 32-bit integer. *)
Theorem compact_data_customer_number_uint32 converted data r n :
  compact_data converted = Ok data ->
  In r data -> LineItem.Customer_Number r = Some n ->
  0 <= n < 2 ^ 32.
Proof.
  intros H Hin Hn. apply compact_data_Ok in H.
  induction H as [|r0 r' l l' Hr _ IH]; [contradiction|].
  destruct Hin as [->|Hin]; [exact (compact_row_uint32 _ _ _ Hr Hn)|auto].
Qed.

Lemma compact_data_customer_number_uint32_witness :
  (exists data r,
     compact_data two_batches = Ok data /\ In r data
     /\ LineItem.Customer_Number r = Some 48505240
     /\ 0 <= 48505240 < 2 ^ 32).
Proof.
  eexists. eexists. split; [vm_compute; reflexivity|].
  assert (Hin : In (LineItem.mk "CZK" "0074" 66010010 2021 5 "DZ" 48505240 "S"
                      (-25 # 2) (Some "") (Some 48505240))
                  [LineItem.mk "EUR" "0075" 66010030 2021 5 "DZ" 0 "D" (100 # 1)
                     (Some "ABC 1234567 note") (Some 1234567);
                   LineItem.mk "EUR" "0075" 66010030 2021 5 "DZ" 999999 "D" (100 # 1)
                     (Some "no id here") (Some 999999);
                   LineItem.mk "CZK" "0074" 66010010 2021 5 "DZ" 48505240 "S"
                     (-25 # 2) (Some "") (Some 48505240)])
    by (right; right; left; reflexivity).
  split; [exact Hin|]. split; [reflexivity|].
  refine (compact_data_customer_number_uint32 two_batches _ _ _ _ Hin eq_refl).
  vm_compute. reflexivity.
Defined.

(** X3: a customer number the extraction step finds in a text is the value
    of seven digits of that text, the first of them 1 or 4, that follow a
    non-digit and are not followed by a digit; it lies in 1000000..1999999
    or in 4000000..4999999. *)
Theorem extract_customer_number_sound r r' n :
  extract_customer_number r = Ok r' ->
  LineItem.Customer_Number r' = Some n ->
  (1000000 <= n <= 1999999 \/ 4000000 <= n <= 4999999)
  /\ exists g,
       occurs_delimited g (text_of r)
       /\ String.length g = 7%nat
       /\ forallb_string isdigit g = true
       /\ n = digits_value 0 g.
Proof.
  intros H Hn. split.
  - exact (extracted_identifier_range _ _ _ H Hn).
  - exact (extracted_identifier_sound _ _ _ H Hn).
Qed.

Lemma extract_customer_number_sound_witness :
  extract_customer_number (posting "ref.4001234/05" 0)
    = Ok (LineItem.with_Customer_Number (posting "ref.4001234/05" 0)
            (Some 4001234))
  /\ (1000000 <= 4001234 <= 1999999 \/ 4000000 <= 4001234 <= 4999999).
Proof.
  split; [vm_compute; reflexivity|].
  exact (proj1 (extract_customer_number_sound (posting "ref.4001234/05" 0) _
                  4001234 eq_refl eq_refl)).
Defined.

Lemma forallb_string_app p (a b : string) :
  forallb_string p (a ++ b)
  = (forallb_string p a && forallb_string p b)%bool.
Proof.
  induction a as [|c a IH]; simpl; [reflexivity|].
  now rewrite IH, andb_assoc.
Qed.

Lemma findall_group_converts text g :
  comma_free text = true -> In g (findall text) ->
  exists n, np_uint64 g = Ok n.
Proof.
  intros Hfree Hin.
  destruct (findall_shape _ _ Hin) as (c & d & -> & Hc & Hl & Hd).
  destruct (findall_context _ _ Hin) as (before & pre & rest & Ht & _).
  unfold comma_free in Hfree. rewrite Ht in Hfree.
  rewrite !forallb_string_app in Hfree.
  apply andb_true_iff in Hfree as [_ Hfree].
  apply andb_true_iff in Hfree as [_ Hfree].
  apply andb_true_iff in Hfree as [Hg _].
  simpl in Hg. apply andb_true_iff in Hg as [Hcomma _].
  apply negb_true_iff in Hcomma.
  assert (Hdigit : isdigit c = true).
  { unfold class_1_comma_4 in Hc. rewrite Hcomma, orb_false_r in Hc.
    apply orb_true_iff in Hc as [E|E]; apply Ascii.eqb_eq in E; now subst. }
  unfold np_uint64. simpl. rewrite Hdigit, Hd. simpl. eexists; reflexivity.
Qed.

Lemma extract_comma_free r :
  comma_free (text_of r) = true -> exists r', extract_customer_number r = Ok r'.
Proof.
  intros Hfree. unfold extract_customer_number, first_or_NA.
  destruct (findall (text_of r)) as [|g l] eqn:Hf; simpl.
  - eexists; reflexivity.
  - destruct (findall_group_converts (text_of r) g Hfree) as (n & ->);
      [rewrite Hf; now left|].
    simpl. eexists; reflexivity.
Qed.

Lemma text_of_fillna r : text_of (fillna_Text r) = text_of r.
Proof. unfold text_of, fillna_Text. simpl. reflexivity. Qed.

Lemma mapM_exists {A B : Type} (f : A -> result B) : forall l,
  (forall a, In a l -> exists b, f a = Ok b) -> exists l', mapM f l = Ok l'.
Proof.
  induction l as [|a l IH]; intros H; [eexists; reflexivity|].
  destruct (H a (or_introl eq_refl)) as (b & Hb).
  destruct IH as (bs & Hbs); [intros; apply H; now right|].
  simpl. rewrite Hb. simpl. rewrite Hbs. simpl. eexists; reflexivity.
Qed.

(** X4: [compact_data] returns a table for every non-empty list of batches
    in which no text holds a comma: only a comma in a text can make the
    conversion of an extracted group fail. *)
Theorem compact_data_comma_free converted :
  converted <> [] ->
  (forall r, In r (concat converted) -> comma_free (text_of r) = true) ->
  exists data, compact_data converted = Ok data.
Proof.
  intros Hne Hfree. rewrite (compact_data_rows converted Hne).
  apply mapM_exists. intros r Hin. unfold compact_row.
  destruct (extract_comma_free (fillna_Text r)) as (r1 & ->).
  - rewrite text_of_fillna. now apply Hfree.
  - simpl. eexists; reflexivity.
Qed.

Lemma compact_data_comma_free_witness :
  two_batches <> []
  /\ (forall r, In r (concat two_batches) -> comma_free (text_of r) = true)
  /\ exists data, compact_data two_batches = Ok data.
Proof.
  assert (Hfree : forall r, In r (concat two_batches) ->
                            comma_free (text_of r) = true).
  { intros r [<-|[<-|[<-|[]]]]; reflexivity. }
  split; [discriminate|]. split; [exact Hfree|].
  apply (compact_data_comma_free two_batches); [discriminate|exact Hfree].
Defined.

End CompactedFacts.

(** ** Further properties of [_parse_amounts] *)

Section AmountsMore.
Import Amounts.

Lemma str_replace_app old new (a b : string) :
  str_replace old new (a ++ b) = str_replace old new a ++ str_replace old new b.
Proof.
  induction a as [|c a IH]; simpl; [reflexivity|].
  destruct (Ascii.eqb c old); rewrite IH.
  - symmetry. apply append_assoc.
  - reflexivity.
Qed.

(** X5: a point in the amount text is dropped wherever it stands: the
    conversion gives the same result with and without it, so the grouping
    of the thousands is not checked. *)
Theorem parse_amounts_ignores_points a b :
  _parse_amounts (a ++ "." ++ b) = _parse_amounts (a ++ b).
Proof.
  unfold _parse_amounts. now rewrite !str_replace_app.
Qed.




(** The two embeddings of [_parse_amounts] agree: the coarser one gives the
    number where the finer one does and nothing otherwise. *)
Lemma parse_amounts_outcome val :
  _parse_amounts val
  = match Numeric._parse_amounts val with
    | Numeric.Number q => Some q
    | _ => None
    end.
Proof.
  unfold _parse_amounts, Numeric._parse_amounts, Numeric.to_numeric.
  fold (Numeric.masked val).
  destruct (Numeric.masked val) as [|c t]; [reflexivity|].
  now destruct (to_numeric (String c t)).
Qed.



End AmountsMore.

(** ** Further properties of [_aggregate_data] *)

Section PivotFacts.
Import Aggregator Pivot.

Lemma within_bins_deduction r : within_bins r -> deduction r <> None.
Proof.
  intros [H0 Hcap]. unfold deduction.
  destruct (Qlt_le_dec 30 (Qabs (LineItem.LC_Amount r))) as [H30|H30].
  - destruct (Qlt_le_dec 50 (Qabs (LineItem.LC_Amount r))) as [H50|H50].
    + now rewrite (cut_over_50 _ H50 Hcap).
    + now rewrite (cut_30_50 _ H30 H50).
  - now rewrite (cut_under_30 _ H0 H30).
Qed.

(** X7: for a table of at most [2 ^ 32] rows whose amounts are whole
    numbers with an absolute value in (0, 999999], the [Deductions_Total]
    of an index summed over its buckets is the sum of the signed
    [LC_Amount] of all rows of the table with that index.  (On such a table
    no addition of the program rounds; on amounts with a fraction the two
    sides can differ in the last bits.) *)
Theorem aggregate_totals_within_bins data stacked k :
  (forall r, In r data ->
     within_bins r /\ Exact.whole (LineItem.LC_Amount r) = true) ->
  Z.of_nat (length data) <= 2 ^ 32 ->
  _aggregate_data data = Ok stacked ->
  (Deductions_Total_of_key stacked k == LC_Amount_of_key data k)%Q.
Proof.
  intros Hall _ H. apply bucket_totals_all_binned; [|assumption].
  intros r Hin. apply within_bins_deduction. now apply Hall.
Qed.

Lemma mixed_table_within_bins r : In r mixed_table -> within_bins r.
Proof.
  intros [<-|[<-|[<-|[<-|[<-|[<-|[]]]]]]]; split; vm_compute; congruence.
Qed.

Lemma whole_table_within_bins r :
  In r Exact.whole_table ->
  within_bins r /\ Exact.whole (LineItem.LC_Amount r) = true.
Proof.
  intros [<-|[<-|[<-|[<-|[<-|[<-|[]]]]]]];
    (split; [split; vm_compute; congruence|reflexivity]).
Qed.

Lemma aggregate_totals_within_bins_witness :
  (forall r, In r Exact.whole_table ->
     within_bins r /\ Exact.whole (LineItem.LC_Amount r) = true)
  /\ Z.of_nat (length Exact.whole_table) <= 2 ^ 32
  /\ exists stacked,
       _aggregate_data Exact.whole_table = Ok stacked
       /\ (Deductions_Total_of_key stacked (key_0075 1000001) == 45)%Q
       /\ (Deductions_Total_of_key stacked (key_0075 1000001)
           == LC_Amount_of_key Exact.whole_table (key_0075 1000001))%Q.
Proof.
  split; [exact whole_table_within_bins|].
  split; [vm_compute; congruence|].
  eexists. split; [vm_compute; reflexivity|].
  split; [vm_compute; reflexivity|].
  apply (aggregate_totals_within_bins Exact.whole_table);
    [exact whole_table_within_bins|vm_compute; congruence
    |vm_compute; reflexivity].
Defined.

(** X8: for a table of fewer than 65536 rows whose absolute amounts all lie
    in (0, 999999], the [Deductions_Count] of an index summed over its
    buckets is the number of rows of the table with that index. *)
Theorem aggregate_counts_within_bins data stacked k :
  (forall r, In r data -> within_bins r) ->
  Z.of_nat (length data) < 65536 ->
  _aggregate_data data = Ok stacked ->
  Deductions_Count_of_key stacked k = Z.of_nat (length (items_of_key data k)).
Proof.
  intros Hall Hlen H. apply bucket_counts_all_binned; [|assumption|assumption].
  intros r Hin. apply within_bins_deduction. now apply Hall.
Qed.

Lemma aggregate_counts_within_bins_witness :
  (forall r, In r mixed_table -> within_bins r)
  /\ Z.of_nat (length mixed_table) < 65536
  /\ exists stacked,
       _aggregate_data mixed_table = Ok stacked
       /\ Deductions_Count_of_key stacked (key_0075 0) = 2
       /\ Deductions_Count_of_key stacked (key_0075 0)
          = Z.of_nat (length (items_of_key mixed_table (key_0075 0))).
Proof.
  split; [exact mixed_table_within_bins|]. split; [reflexivity|].
  eexists. split; [vm_compute; reflexivity|].
  split; [vm_compute; reflexivity|].
  apply (aggregate_counts_within_bins mixed_table);
    [exact mixed_table_within_bins|reflexivity|vm_compute; reflexivity].
Defined.

(** *** One row for each index and observed label *)

Lemma stacked_row_label data k b : Agg.Deductions (stacked_row data k b) = b.
Proof. destruct k as [[[[[cc gl] y] p] cn] cur]. reflexivity. Qed.

Lemma stacked_row_customer data k b :
  Agg.Customer_Number (stacked_row data k b) = Some (snd (fst k)).
Proof. destruct k as [[[[[cc gl] y] p] cn] cur]. reflexivity. Qed.

Lemma filter_only (b : string) : forall l,
  NoDup l -> In b l -> filter (fun b' => String.eqb b' b) l = [b].
Proof.
  induction l as [|c l IH]; intros Hnd Hin; [contradiction|].
  inversion Hnd as [|? ? Hnotin Hnd']; subst. simpl.
  destruct (String.eqb_spec c b) as [->|Hne].
  - f_equal. clear IH Hin Hnd Hnd'.
    induction l as [|d l IHl]; [reflexivity|]. simpl.
    destruct (String.eqb_spec d b) as [->|_].
    + exfalso. apply Hnotin. now left.
    + apply IHl. intros H. apply Hnotin. now right.
  - destruct Hin as [->|Hin]; [congruence|]. now apply IH.
Qed.

Lemma filter_both {A : Type} (p q : A -> bool) : forall l,
  filter (fun x => (p x && q x)%bool) l = filter q (filter p l).
Proof.
  induction l as [|x l IH]; [reflexivity|].
  simpl. destruct (p x); simpl; [destruct (q x)|]; now rewrite IH.
Qed.

Lemma filter_of_map {A B : Type} (f : A -> B) (p : B -> bool) : forall l,
  filter p (map f l) = map f (filter (fun a => p (f a)) l).
Proof.
  induction l as [|x l IH]; [reflexivity|].
  simpl. destruct (p (f x)); simpl; now rewrite IH.
Qed.

Lemma cell_of_rows stacked k b :
  cell stacked k b
  = filter (fun row => String.eqb (Agg.Deductions row) b) (rows_of_key stacked k).
Proof. unfold cell, rows_of_key. apply filter_both. Qed.

Lemma index_In data r :
  In r data -> deduction r <> None -> In (key_of r) (index data).
Proof.
  intros Hin Hd. unfold index. apply unique_In. apply in_map.
  apply filter_In. split; [assumption|].
  unfold notna. now destruct (deduction r).
Qed.

(** X9: the stacked table is dense.  For the index of any row that falls
    into a bin and the label of any row that falls into a bin, it holds
    exactly one row; that row carries the customer number of the index (0
    for a missing one), the 16-bit count and the sum of the signed amounts
    of the rows of the table under that index and label, which are 0 and 0
    when there is no such row. *)
Theorem aggregate_cell data stacked r1 r2 b :
  _aggregate_data data = Ok stacked ->
  In r1 data -> deduction r1 <> None ->
  In r2 data -> deduction r2 = Some b ->
  exists row,
    cell stacked (key_of r1) b = [row]
    /\ Agg.Customer_Number row
       = Some (fillna0 (LineItem.Customer_Number r1))
    /\ Agg.Deductions_Count row
       = astype_uint16 (Z.of_nat (length (group data (key_of r1) b)))
    /\ Agg.Deductions_Total row
       = sumQ (map LineItem.LC_Amount (group data (key_of r1) b))
    /\ (group data (key_of r1) b = [] ->
        Agg.Deductions_Count row = 0 /\ Agg.Deductions_Total row = 0%Q).
Proof.
  intros H Hin1 Hd1 Hin2 Hd2.
  exists (stacked_row data (key_of r1) b).
  split; [|split; [|split; [|split]]].
  - rewrite cell_of_rows, (aggregate_rows_of_key data stacked _ H).
    rewrite (proj2 (existsb_key _ _) (index_In data r1 Hin1 Hd1)).
    rewrite filter_of_map.
    rewrite (filter_ext _ (fun b' => String.eqb b' b))
      by (intros; now rewrite stacked_row_label).
    rewrite (filter_only b _ (columns_NoDup data) (columns_In data r2 b Hin2 Hd2)).
    reflexivity.
  - rewrite stacked_row_customer. reflexivity.
  - apply stacked_row_count.
  - apply stacked_row_total.
  - intros Hempty. rewrite stacked_row_count, stacked_row_total, Hempty.
    split; reflexivity.
Qed.

Lemma aggregate_cell_witness :
  exists stacked,
    _aggregate_data mixed_table = Ok stacked
    /\ exists row,
         cell stacked (key_0075 0) "over 50" = [row]
         /\ Agg.Deductions_Count row = 0 /\ Agg.Deductions_Total row = 0%Q.
Proof.
  eexists. split; [vm_compute; reflexivity|].
  match goal with
  | |- exists row, cell ?st _ _ = _ /\ _ =>
      destruct (aggregate_cell mixed_table st
                  (item None (-30)%Q) (item (Some 1000001) 120%Q) "over 50"
                  eq_refl
                  (or_intror (or_intror (or_introl eq_refl)))
                  ltac:(vm_compute; discriminate)
                  (or_intror (or_intror (or_intror (or_introl eq_refl))))
                  eq_refl)
        as (row & Hcell & _ & _ & _ & Hzero)
  end.
  exists row. split; [exact Hcell|]. apply Hzero. reflexivity.
Defined.

Lemma aggregate_Ok data stacked :
  _aggregate_data data = Ok stacked ->
  columns data <> []
  /\ stacked
     = flat_map (fun k => map (stacked_row data k) (columns data)) (index data).
Proof.
  unfold _aggregate_data. destruct (columns data) as [|c cols];
    [discriminate|].
  intros H; inversion H. split; [discriminate|reflexivity].
Qed.

(** X10: every row of the stacked table stems from the input: its index is
    the index of an input row that falls into a bin, its customer number
    is present (0 standing for a missing one), its label is one of the
    three labels and is the label of some input row, and its count lies in
    the range of an unsigned 16-bit integer. *)
Theorem aggregate_rows_stem_from_input data stacked row :
  _aggregate_data data = Ok stacked ->
  In row stacked ->
  (exists r,
     In r data /\ deduction r <> None /\ agg_key row = key_of r
     /\ Agg.Customer_Number row = Some (fillna0 (LineItem.Customer_Number r)))
  /\ (exists r, In r data /\ deduction r = Some (Agg.Deductions row))
  /\ In (Agg.Deductions row) labels
  /\ 0 <= Agg.Deductions_Count row < 65536.
Proof.
  intros H Hin. apply aggregate_Ok in H as [_ ->].
  apply in_flat_map in Hin as (k & Hk & Hrow).
  apply in_map_iff in Hrow as (b & <- & Hb).
  unfold index in Hk. apply (proj1 (unique_In _ _)) in Hk.
  apply in_map_iff in Hk as (r & <- & Hr). apply filter_In in Hr as [Hr Hbin].
  unfold columns in Hb. apply filter_In in Hb as [Hlab Hex].
  apply existsb_exists in Hex as (r' & Hr' & Hl'). apply has_label_iff in Hl'.
  split; [|split; [|split]].
  - exists r. split; [assumption|]. split.
    + unfold notna in Hbin. now destruct (deduction r).
    + split; [apply stacked_row_key|]. rewrite stacked_row_customer.
      reflexivity.
  - exists r'. rewrite stacked_row_label. now split.
  - now rewrite stacked_row_label.
  - rewrite stacked_row_count. unfold astype_uint16.
    apply Z.mod_pos_bound. lia.
Qed.

Lemma aggregate_rows_stem_from_input_witness :
  exists stacked row,
    _aggregate_data mixed_table = Ok stacked
    /\ In row stacked
    /\ In (Agg.Deductions row) labels
    /\ 0 <= Agg.Deductions_Count row < 65536.
Proof.
  eexists. eexists. split; [vm_compute; reflexivity|].
  split; [left; reflexivity|].
  refine (proj2 (proj2 (aggregate_rows_stem_from_input mixed_table _ _
                          eq_refl (or_introl eq_refl)))).
Defined.

(** X11: the bucket of a row depends on the size of its amount only, not on
    its sign: an absolute amount in (0, 30] gives "under 30", one in
    (30, 50] gives "30 - 50" and one in (50, 999999] gives "over 50". *)
Theorem deduction_by_absolute_amount r :
  ((0 < Qabs (LineItem.LC_Amount r))%Q -> (Qabs (LineItem.LC_Amount r) <= 30)%Q ->
   deduction r = Some "under 30")
  /\ ((30 < Qabs (LineItem.LC_Amount r))%Q -> (Qabs (LineItem.LC_Amount r) <= 50)%Q ->
      deduction r = Some "30 - 50")
  /\ ((50 < Qabs (LineItem.LC_Amount r))%Q ->
      (Qabs (LineItem.LC_Amount r) <= 999999)%Q ->
      deduction r = Some "over 50").
Proof.
  unfold deduction. split; [|split].
  - apply cut_under_30.
  - apply cut_30_50.
  - apply cut_over_50.
Qed.

Lemma deduction_by_absolute_amount_witness :
  (30 < Qabs (LineItem.LC_Amount (item None (-40)%Q)))%Q
  /\ (Qabs (LineItem.LC_Amount (item None (-40)%Q)) <= 50)%Q
  /\ deduction (item None (-40)%Q) = Some "30 - 50".
Proof.
  assert (H30 : (30 < Qabs (LineItem.LC_Amount (item None (-40)%Q)))%Q)
    by reflexivity.
  assert (H50 : (Qabs (LineItem.LC_Amount (item None (-40)%Q)) <= 50)%Q)
    by (vm_compute; discriminate).
  split; [exact H30|]. split; [exact H50|].
  exact (proj1 (proj2 (deduction_by_absolute_amount (item None (-40)%Q))) H30 H50).
Defined.

End PivotFacts.

(** ** Further properties of [assign_customers] *)

Section MasterFacts.
Import Resolver Master.

Lemma filter_unique_key {B K : Type} (key : B -> K) (p : B -> bool) : forall l,
  NoDup (map key l) ->
  (forall b1 b2, In b1 l -> In b2 l -> p b1 = true -> p b2 = true ->
                 key b1 = key b2) ->
  (length (filter p l) <= 1)%nat.
Proof.
  induction l as [|b l IH]; intros Hnd Hkey; [simpl; lia|].
  inversion Hnd as [|? ? Hnotin Hnd']; subst. simpl.
  assert (IH' : (length (filter p l) <= 1)%nat).
  { apply IH; [assumption|]. intros b1 b2 H1 H2. apply Hkey; now right. }
  destruct (p b) eqn:Hp; [|assumption].
  destruct (filter p l) as [|b2 rest] eqn:Hf; [simpl; lia|].
  exfalso. apply Hnotin.
  assert (Hin : In b2 (filter p l)) by (rewrite Hf; now left).
  apply filter_In in Hin as [Hin Hp2].
  rewrite (Hkey b b2 (or_introl eq_refl) (or_intror Hin) Hp Hp2).
  now apply in_map.
Qed.

Lemma merge_left_one_match {A B : Type} (on : A -> B -> bool) right : forall left,
  (forall a, In a left -> (length (filter (on a) right) <= 1)%nat) ->
  length (merge_left on left right) = length left.
Proof.
  induction left as [|a left IH]; intros H; [reflexivity|].
  rewrite merge_left_cons, length_app, IH by (intros; apply H; now right).
  specialize (H a (or_introl eq_refl)).
  destruct (filter (on a) right) as [|b [|b' found]]; simpl in *; lia.
Qed.

Lemma opt_Z_eqb_eq a b : opt_Z_eqb a b = true -> a = b.
Proof.
  destruct a, b; simpl; try discriminate; [|reflexivity].
  intros H. apply Z.eqb_eq in H. now subst.
Qed.

(** X12: when no two branch rows of the master share branch number and
    company code and no two of its distinct (head office, name) pairs share
    the head-office number, the merges add no row: for every non-empty
    table [assign_customers] passes its row-count assertion and returns a
    table with one row for each aggregated row. *)
Theorem assign_customers_unique_master compacted cust_data aggregated :
  compacted <> [] ->
  Aggregator._aggregate_data compacted = Ok aggregated ->
  NoDup (branch_keys cust_data) ->
  NoDup (head_office_keys cust_data) ->
  assign_customers compacted cust_data = Ok (renamed aggregated cust_data)
  /\ length (renamed aggregated cust_data) = length aggregated.
Proof.
  intros Hne Hagg Hb Hh.
  assert (Hlen : length (renamed aggregated cust_data) = length aggregated).
  { rewrite renamed_length. unfold updated_hd_off, updated_cust_num.
    rewrite merge_left_one_match.
    - apply merge_left_one_match. intros a _.
      apply (filter_unique_key (fun b => (fst (fst b), snd b))); [exact Hb|].
      intros [[b1 n1] c1] [[b2 n2] c2] _ _ H1 H2. unfold on_branch in *.
      apply andb_true_iff in H1 as [H1 H1c], H2 as [H2 H2c].
      apply opt_Z_eqb_eq in H1, H2. apply String.eqb_eq in H1c, H2c.
      simpl. congruence.
    - intros x _. apply (filter_unique_key fst); [exact Hh|].
      intros h1 h2 _ _ H1 H2. unfold on_head_office in *.
      apply opt_Z_eqb_eq in H1, H2. congruence. }
  split; [|exact Hlen].
  rewrite (assign_customers_nonempty _ _ _ Hne Hagg), Hlen, Nat.eqb_refl.
  reflexivity.
Qed.

Lemma assign_customers_unique_master_witness :
  postings_of 1000002 <> []
  /\ NoDup (branch_keys master_plain)
  /\ NoDup (head_office_keys master_plain)
  /\ exists aggregated,
       Aggregator._aggregate_data (postings_of 1000002) = Ok aggregated
       /\ assign_customers (postings_of 1000002) master_plain
          = Ok (renamed aggregated master_plain)
       /\ map Processed.Customer_Name (renamed aggregated master_plain)
          = [Some "Alpha"].
Proof.
  assert (Hb : NoDup (branch_keys master_plain)).
  { vm_compute. repeat constructor; simpl; intuition congruence. }
  assert (Hh : NoDup (head_office_keys master_plain)).
  { vm_compute. repeat constructor; simpl; intuition congruence. }
  split; [discriminate|]. split; [exact Hb|]. split; [exact Hh|].
  eexists. split; [vm_compute; reflexivity|].
  split; [|vm_compute; reflexivity].
  refine (proj1 (assign_customers_unique_master (postings_of 1000002)
                   master_plain _ _ eq_refl Hb Hh)).
  discriminate.
Defined.

End MasterFacts.

(** ** The controller *)

Section ControllerFacts.
Import Controller.

(** X13: [process_fbl3n_data] never returns tables for an input without
    rows.  An empty list of batches is refused by [compact_data]; a list of
    batches that are all empty passes [compact_data] and is refused by the
    guard of [assign_customers]. *)
Theorem process_fbl3n_data_no_rows exported cust_data :
  concat exported = [] ->
  process_fbl3n_data exported cust_data
  = Raise (ValueError match exported with
                      | [] => "The input data contains no records!"
                      | _ => "Input data contains no records!"
                      end).
Proof.
  intros Hrows. unfold process_fbl3n_data.
  destruct exported as [|b bs]; [reflexivity|].
  rewrite compact_data_rows by discriminate. rewrite Hrows. reflexivity.
Qed.

Lemma process_fbl3n_data_no_rows_witness :
  concat [[]; []] = ([] : list LineItem.row)
  /\ process_fbl3n_data [[]; []] Resolver.master
     = Raise (ValueError "Input data contains no records!").
Proof.
  split; [reflexivity|].
  exact (process_fbl3n_data_no_rows [[]; []] Resolver.master eq_refl).
Defined.

(** *** The retry loop *)

Lemma lost_step sap c j :
  lost sap c (S j) ->
  (exists msg, sap c = Raises (SapConnectionLostError msg)) /\ lost sap (S c) j.
Proof.
  intros H. split.
  - destruct (H 0%nat ltac:(lia)) as (msg & Hm). rewrite Nat.add_0_r in Hm.
    now exists msg.
  - intros i Hi. destruct (H (S i) ltac:(lia)) as (msg & Hm).
    exists msg. now rewrite Nat.add_succ_r in Hm.
Qed.

(** X14: the retry loop stops at the first export that does not lose the
    connection.  If the exports before the [j]-th lose the connection and
    the [j]-th, still within [max_attempts], returns, the loop yields its
    data; if it raises anything else, that exception leaves the loop; in
    both cases no further export is attempted. *)
Theorem attempts_first_settled sap : forall remaining nth calls j,
  (j < remaining)%nat ->
  lost sap calls j ->
  settles (sap (calls + j)%nat) ->
  attempts sap remaining nth calls
  = (exit_of (sap (calls + j)%nat), S (calls + j)).
Proof.
  induction remaining as [|remaining IH]; intros nth calls j Hj Hlost Hset;
    [lia|].
  destruct j as [|j].
  - rewrite Nat.add_0_r in *. simpl.
    destruct (sap calls) as [d|[]]; simpl in *; try reflexivity; contradiction.
  - apply lost_step in Hlost as [(msg & Hm) Hrest].
    simpl. rewrite Hm. rewrite Nat.add_succ_r in *.
    apply (IH (nth + 1) (S calls) j); [lia|assumption|assumption].
Qed.

Lemma attempts_first_settled_witness :
  lost (fun n => flaky n "0075") 0 2
  /\ settles (flaky 2 "0075")
  /\ attempts (fun n => flaky n "0075") 3 0 0 = (Break "| EUR |0075|", 3%nat).
Proof.
  assert (Hl : lost (fun n => flaky n "0075") 0 2).
  { intros i Hi. exists "Connection to SAP lost!".
    destruct i as [|[|i]]; [reflexivity|reflexivity|lia]. }
  split; [exact Hl|]. split; [exact I|].
  exact (attempts_first_settled (fun n => flaky n "0075") 3 0 0 2
           ltac:(lia) Hl I).
Defined.

Lemma attempts_all_lost sap : forall remaining nth calls,
  lost sap calls remaining ->
  attempts sap remaining nth calls
  = (Fell_through (nth + Z.of_nat remaining), (calls + remaining)%nat).
Proof.
  induction remaining as [|remaining IH]; intros nth calls Hlost.
  - simpl. now rewrite Z.add_0_r, Nat.add_0_r.
  - apply lost_step in Hlost as [(msg & Hm) Hrest].
    simpl attempts. rewrite Hm, (IH _ _ Hrest). f_equal; [f_equal|]; lia.
Qed.

(** X15: when [max_attempts] is positive and the first [max_attempts]
    exports all lose the connection, [export_fbl3n_data] gives up with a
    [RuntimeError] after exactly [max_attempts] exports, for the first
    company code, and does not reach [fbl3n.close()]. *)
Theorem export_gives_up {T : Type} sap (convert : string -> outcome T) close
    cocd rest max_attempts :
  0 < max_attempts ->
  lost (fun n => sap n cocd) 0 (Z.to_nat max_attempts) ->
  export_fbl3n_data None sap convert close (cocd :: rest) max_attempts
  = mk_run
      (Raises (RuntimeError
                 "Attempts to handle the SapConnectionLostError failed!"))
      (Z.to_nat max_attempts) false.
Proof.
  intros Hpos Hlost. unfold export_fbl3n_data. cbn [countries].
  rewrite (attempts_all_lost _ _ _ _ Hlost).
  rewrite Z2Nat.id by lia. cbn [Z.add].
  destruct (Z.eqb_spec max_attempts 0) as [E|_]; [lia|]. reflexivity.
Qed.

Lemma export_gives_up_witness :
  0 < 3
  /\ lost (fun n => always_lost n "0075") 0 (Z.to_nat 3)
  /\ export_fbl3n_data None always_lost keep_text None ["0075"; "0074"] 3
     = mk_run
         (Raises (RuntimeError
                    "Attempts to handle the SapConnectionLostError failed!"))
         3 false.
Proof.
  assert (Hl : lost (fun n => always_lost n "0075") 0 (Z.to_nat 3)).
  { intros i _. now exists "Connection to SAP lost!". }
  split; [lia|]. split; [exact Hl|].
  exact (export_gives_up always_lost keep_text None "0075" ["0074"] 3
           ltac:(lia) Hl).
Defined.

(** *** The function as a whole *)

Lemma attempts_calls sap : forall remaining nth calls,
  (calls <= snd (attempts sap remaining nth calls) <= calls + remaining)%nat.
Proof.
  induction remaining as [|remaining IH]; intros nth calls; simpl; [lia|].
  destruct (sap calls) as [d|[]]; simpl; try lia.
  specialize (IH (nth + 1) (S calls)). lia.
Qed.

Lemma countries_calls {T : Type} (convert : string -> outcome T) sap
    max_attempts : forall cocds data result calls,
  (snd (countries convert sap max_attempts cocds data result calls)
   <= calls + Z.to_nat max_attempts * length cocds)%nat.
Proof.
  induction cocds as [|cocd rest IH]; intros data result calls; simpl; [lia|].
  pose proof (attempts_calls (fun n => sap n cocd) (Z.to_nat max_attempts) 0
                calls) as Hc.
  destruct (attempts (fun n => sap n cocd) (Z.to_nat max_attempts) 0 calls)
    as [exit calls'] eqn:Ha.
  simpl in Hc.
  assert (Hnext : forall d,
    (snd match d with
         | None => (Raises (UnboundLocalError "data"), calls')
         | Some text =>
             match convert text with
             | Returns converted =>
                 countries convert sap max_attempts rest d
                   (result ++ [converted])%list calls'
             | Raises e => (Raises e, calls')
             end
         end <= calls + (Z.to_nat max_attempts
                         + Z.to_nat max_attempts * length rest))%nat).
  { intros [text|]; simpl; [|lia].
    destruct (convert text) as [c|e]; simpl; [|lia].
    specialize (IH (Some text) (result ++ [c])%list calls'). lia. }
  replace (Z.to_nat max_attempts * S (length rest))%nat
    with (Z.to_nat max_attempts + Z.to_nat max_attempts * length rest)%nat
    by lia.
  destruct exit as [text|nth|e]; simpl.
  - exact (Hnext (Some text)).
  - destruct (nth =? 0)%Z; [exact (Hnext data)|simpl; lia].
  - lia.
Qed.

Lemma countries_more {T : Type} (convert : string -> outcome T) sap
    max_attempts cocd : forall before data result calls,
  (snd (countries convert sap max_attempts before data result calls)
   <= snd (countries convert sap max_attempts (before ++ [cocd]) data result
             calls)
   <= snd (countries convert sap max_attempts before data result calls)
      + Z.to_nat max_attempts)%nat.
Proof.
  induction before as [|b rest IH]; intros data result calls.
  - cbn [app countries snd].
    pose proof (attempts_calls (fun n => sap n cocd) (Z.to_nat max_attempts) 0
                  calls) as Hc.
    destruct (attempts (fun n => sap n cocd) (Z.to_nat max_attempts) 0 calls)
      as [exit c1].
    cbn [snd] in Hc.
    assert (Hnext : forall d,
      (calls
       <= snd match d with
              | None => (Raises (UnboundLocalError "data"), c1)
              | Some text =>
                  match convert text with
                  | Returns converted =>
                      (Returns (result ++ [converted])%list, c1)
                  | Raises e => (@Raises (list T) e, c1)
                  end
              end
       <= calls + Z.to_nat max_attempts)%nat).
    { intros [text|]; [destruct (convert text)|]; cbn [snd]; lia. }
    destruct exit as [text|nth|e]; [exact (Hnext (Some text))| |cbn [snd]; lia].
    destruct (nth =? 0)%Z; [exact (Hnext data)|cbn [snd]; lia].
  - change ((b :: rest) ++ [cocd])%list with (b :: (rest ++ [cocd]))%list.
    cbn [countries].
    destruct (attempts (fun n => sap n b) (Z.to_nat max_attempts) 0 calls)
      as [exit c1].
    assert (Hnext : forall d,
      (snd match d with
           | None => (Raises (UnboundLocalError "data"), c1)
           | Some text =>
               match convert text with
               | Returns converted =>
                   countries convert sap max_attempts rest d
                     (result ++ [converted])%list c1
               | Raises e => (Raises e, c1)
               end
           end
       <= snd match d with
              | None => (Raises (UnboundLocalError "data"), c1)
              | Some text =>
                  match convert text with
                  | Returns converted =>
                      countries convert sap max_attempts (rest ++ [cocd]) d
                        (result ++ [converted])%list c1
                  | Raises e => (Raises e, c1)
                  end
              end
       <= snd match d with
              | None => (Raises (UnboundLocalError "data"), c1)
              | Some text =>
                  match convert text with
                  | Returns converted =>
                      countries convert sap max_attempts rest d
                        (result ++ [converted])%list c1
                  | Raises e => (Raises e, c1)
                  end
              end + Z.to_nat max_attempts)%nat).
    { intros [text|]; [|cbn [snd]; lia].
      destruct (convert text) as [c|e]; [apply IH|cbn [snd]; lia]. }
    destruct exit as [text|nth|e]; [exact (Hnext (Some text))| |cbn [snd]; lia].
    destruct (nth =? 0)%Z; [exact (Hnext data)|cbn [snd]; lia].
Qed.

Lemma export_calls_countries {T : Type} sap (convert : string -> outcome T)
    close cocds max_attempts :
  export_calls (export_fbl3n_data None sap convert close cocds max_attempts)
  = snd (countries convert sap max_attempts cocds None [] 0).
Proof.
  unfold export_fbl3n_data.
  destruct (countries convert sap max_attempts cocds None [] 0) as [[r|e] c];
    [destruct close|]; reflexivity.
Qed.

(** X16: whatever SAP does, a company code costs at most [max_attempts]
    exports.  The exports for a company code are those the function makes
    beyond the ones it makes for the company codes before it: with one
    more company code at the end of the rules it attempts no fewer exports
    and at most [max_attempts] more, and none more for a [max_attempts] of
    0 or less.  In total it attempts at most [max_attempts] exports times
    the number of company codes. *)
Theorem export_calls_per_country {T : Type} start sap
    (convert : string -> outcome T) close before cocd max_attempts :
  (export_calls
     (export_fbl3n_data start sap convert close before max_attempts)
   <= export_calls
        (export_fbl3n_data start sap convert close (before ++ [cocd])
           max_attempts)
   <= export_calls
        (export_fbl3n_data start sap convert close before max_attempts)
      + Z.to_nat max_attempts)%nat
  /\ (export_calls
        (export_fbl3n_data start sap convert close before max_attempts)
      <= Z.to_nat max_attempts * length before)%nat.
Proof.
  destruct start as [e|]; [simpl; lia|].
  rewrite !export_calls_countries. split; [apply countries_more|].
  exact (countries_calls convert sap max_attempts before None [] 0).
Qed.

Lemma countries_returns {T : Type} (convert : string -> outcome T) sap
    max_attempts : forall cocds data result calls tables calls',
  countries convert sap max_attempts cocds data result calls
  = (Returns tables, calls') ->
  length tables = (length result + length cocds)%nat.
Proof.
  induction cocds as [|cocd rest IH]; intros data result calls tables calls' H;
    simpl in H.
  - inversion H; subst. simpl. lia.
  - destruct (attempts (fun n => sap n cocd) (Z.to_nat max_attempts) 0 calls)
      as [exit c1].
    assert (Hnext : forall d,
      match d with
      | None => (Raises (UnboundLocalError "data"), c1)
      | Some text =>
          match convert text with
          | Returns converted =>
              countries convert sap max_attempts rest d
                (result ++ [converted])%list c1
          | Raises e => (Raises e, c1)
          end
      end = (Returns tables, calls') ->
      length tables = (length result + S (length rest))%nat).
    { intros [text|] Hd; [|discriminate].
      destruct (convert text) as [c|e]; [|discriminate].
      apply IH in Hd. rewrite length_app in Hd. simpl in Hd. lia. }
    destruct exit as [text|nth|e]; [exact (Hnext (Some text) H)| |discriminate].
    destruct (nth =? 0)%Z; [exact (Hnext data H)|discriminate].
Qed.

Lemma attempts_break sap : forall remaining nth calls text calls',
  attempts sap remaining nth calls = (Break text, calls') ->
  exists n, (calls <= n < calls')%nat /\ sap n = Returns text.
Proof.
  induction remaining as [|remaining IH]; intros nth calls text calls' H;
    simpl in H; [discriminate|].
  destruct (sap calls) as [d|e] eqn:Hs.
  - inversion H; subst. exists calls. split; [lia|exact Hs].
  - destruct e; try discriminate.
    apply IH in H. destruct H as [n [Hn Hr]]. exists n. split; [lia|exact Hr].
Qed.

Lemma attempts_fell_through sap : forall remaining nth calls m calls',
  attempts sap remaining nth calls = (Fell_through m, calls') ->
  m = nth + Z.of_nat remaining.
Proof.
  induction remaining as [|remaining IH]; intros nth calls m calls' H;
    simpl in H.
  - inversion H; subst. lia.
  - destruct (sap calls) as [d|e]; [discriminate|].
    destruct e; try discriminate. apply IH in H. lia.
Qed.

Lemma countries_from {T : Type} (convert : string -> outcome T) sap
    max_attempts : forall cocds data result calls,
  (calls <= snd (countries convert sap max_attempts cocds data result calls))%nat.
Proof.
  induction cocds as [|cocd rest IH]; intros data result calls; simpl; [lia|].
  pose proof (attempts_calls (fun n => sap n cocd) (Z.to_nat max_attempts) 0
                calls) as Hc.
  destruct (attempts (fun n => sap n cocd) (Z.to_nat max_attempts) 0 calls)
    as [exit c1].
  cbn [snd] in Hc.
  assert (Hnext : forall d,
    (calls
     <= snd match d with
            | None => (Raises (UnboundLocalError "data"), c1)
            | Some text =>
                match convert text with
                | Returns converted =>
                    countries convert sap max_attempts rest d
                      (result ++ [converted])%list c1
                | Raises e => (Raises e, c1)
                end
            end)%nat).
  { intros [text|]; [|cbn [snd]; lia].
    destruct (convert text) as [c|e]; [|cbn [snd]; lia].
    specialize (IH (Some text) (result ++ [c])%list c1). lia. }
  destruct exit as [text|nth|e]; [exact (Hnext (Some text))| |cbn [snd]; lia].
  destruct (nth =? 0)%Z; [exact (Hnext data)|cbn [snd]; lia].
Qed.

(** The tables of a loop that returns: each is converted from a text that
    an export for its company code has returned. *)
Lemma countries_tables {T : Type} (convert : string -> outcome T) sap
    max_attempts : forall cocds data result calls tables calls',
  (Z.to_nat max_attempts = 0%nat -> data = None) ->
  countries convert sap max_attempts cocds data result calls
  = (Returns tables, calls') ->
  exists new,
    tables = (result ++ new)%list
    /\ Forall2
         (fun cocd table =>
            exists n text,
              (n < calls')%nat /\ sap n cocd = Returns text
              /\ convert text = Returns table)
         cocds new.
Proof.
  induction cocds as [|cocd rest IH];
    intros data result calls tables calls' Hdata H.
  - simpl in H. inversion H; subst. exists []. split; [|constructor].
    now rewrite app_nil_r.
  - cbn [countries] in H.
    destruct (attempts (fun n => sap n cocd) (Z.to_nat max_attempts) 0 calls)
      as [exit c1] eqn:Ha.
    destruct exit as [text|nth|e]; [| |discriminate].
    + destruct (convert text) as [c|e] eqn:Hc; [|discriminate].
      assert (Hpos : Z.to_nat max_attempts = 0%nat -> Some text = None).
      { intros Hz. rewrite Hz in Ha. discriminate. }
      pose proof (countries_from convert sap max_attempts rest (Some text)
                    (result ++ [c])%list c1) as Hge.
      rewrite H in Hge. cbn [snd] in Hge.
      destruct (IH _ _ _ _ _ Hpos H) as [new [Ht Hall]].
      apply attempts_break in Ha. destruct Ha as [n [Hn Hs]].
      exists (c :: new). split; [now rewrite Ht, <- app_assoc|].
      constructor; [|exact Hall].
      exists n, text. split; [lia|]. now split.
    + apply attempts_fell_through in Ha.
      destruct (nth =? 0)%Z eqn:Hz; [|discriminate].
      apply Z.eqb_eq in Hz.
      rewrite Hdata in H by lia. discriminate.
Qed.

(** X17: when [export_fbl3n_data] returns, it returns one table for each
    company code of the rules, in the order of the rules, and the table of
    a company code is [convert_data] applied to a text that one of the
    exports made for that very company code has returned; the transaction
    has been closed.  When the function has not reached [fbl3n.close()],
    it has raised. *)
Theorem export_returns_one_table_per_country {T : Type} start sap
    (convert : string -> outcome T) close cocds max_attempts :
  (forall tables,
     returned (export_fbl3n_data start sap convert close cocds max_attempts)
     = Returns tables ->
     length tables = length cocds
     /\ Forall2
          (fun cocd table =>
             exists n text,
               (n < export_calls
                      (export_fbl3n_data start sap convert close cocds
                         max_attempts))%nat
               /\ sap n cocd = Returns text
               /\ convert text = Returns table)
          cocds tables
     /\ closed (export_fbl3n_data start sap convert close cocds max_attempts)
        = true)
  /\ (closed (export_fbl3n_data start sap convert close cocds max_attempts)
      = false ->
      exists e,
        returned (export_fbl3n_data start sap convert close cocds max_attempts)
        = Raises e).
Proof.
  unfold export_fbl3n_data. destruct start as [e|].
  - split; [discriminate|]. intros _. now exists e.
  - destruct (countries convert sap max_attempts cocds None [] 0)
      as [[r|e] calls] eqn:Hc.
    + destruct close as [e|]; simpl.
      * split; [discriminate|discriminate].
      * split; [|discriminate]. intros tables H; inversion H; subst.
        destruct (countries_tables convert sap max_attempts cocds None []
                    0%nat tables calls (fun _ => eq_refl) Hc)
          as [new [Ht Hall]].
        simpl in Ht. subst new.
        split; [symmetry; exact (Forall2_length Hall)|].
        split; [exact Hall|reflexivity].
    + simpl. split; [discriminate|]. intros _. now exists e.
Qed.

Lemma export_returns_one_table_per_country_witness :
  returned (export_fbl3n_data None flaky keep_text None ["0075"; "0074"] 3)
    = Returns ["| EUR |0075|"; "| EUR |0074|"]
  /\ export_calls (export_fbl3n_data None flaky keep_text None ["0075"; "0074"] 3)
     = 4%nat
  /\ Forall2
       (fun cocd table =>
          exists n text,
            (n < export_calls
                   (export_fbl3n_data None flaky keep_text None
                      ["0075"; "0074"] 3))%nat
            /\ flaky n cocd = Returns text
            /\ keep_text text = Returns table)
       ["0075"; "0074"] ["| EUR |0075|"; "| EUR |0074|"].
Proof.
  split; [reflexivity|]. split; [reflexivity|].
  exact (proj1 (proj2 (proj1 (export_returns_one_table_per_country None flaky
                                keep_text None ["0075"; "0074"] 3) _ eq_refl))).
Defined.

(** X18: with a [max_attempts] of 0 or less no export is attempted, the
    variable [data] is never bound, and for a non-empty set of rules the
    function fails with an [UnboundLocalError] instead of the
    [RuntimeError] of the retry loop. *)
Theorem export_without_attempts {T : Type} sap (convert : string -> outcome T)
    close cocd rest max_attempts :
  max_attempts <= 0 ->
  export_fbl3n_data None sap convert close (cocd :: rest) max_attempts
  = mk_run (Raises (UnboundLocalError "data")) 0 false.
Proof.
  intros H. unfold export_fbl3n_data. cbn [countries].
  replace (Z.to_nat max_attempts) with 0%nat by lia. reflexivity.
Qed.

Lemma export_without_attempts_witness :
  0 <= 0
  /\ export_fbl3n_data None flaky keep_text None ["0075"] 0
     = mk_run (Raises (UnboundLocalError "data")) 0 false.
Proof.
  split; [lia|].
  exact (export_without_attempts flaky keep_text None "0075" [] 0 ltac:(lia)).
Defined.

End ControllerFacts.

(** ** Rules and log files *)

Section RulesFacts.
Import Rules.

Lemma get_app_fresh done cocd r todo :
  ~ In cocd (map fst done) ->
  get (done ++ (cocd, r) :: todo)%list cocd = Some r.
Proof.
  induction done as [|[k r0] done IH]; intros Hfresh; simpl.
  - now rewrite String.eqb_refl.
  - destruct (String.eqb_spec k cocd) as [->|_].
    + exfalso. apply Hfresh. now left.
    + apply IH. intros H. apply Hfresh. now right.
Qed.

Lemma del_fresh rules cocd :
  ~ In cocd (map fst rules) -> del rules cocd = rules.
Proof.
  induction rules as [|[k r] rules IH]; intros Hfresh; [reflexivity|].
  unfold del in *. simpl.
  destruct (String.eqb_spec k cocd) as [->|_].
  - exfalso. apply Hfresh. now left.
  - simpl. f_equal. apply IH. intros H. apply Hfresh. now right.
Qed.

Lemma del_app done cocd r todo :
  ~ In cocd (map fst done) -> ~ In cocd (map fst todo) ->
  del (done ++ (cocd, r) :: todo)%list cocd = (done ++ todo)%list.
Proof.
  intros Hd Ht. unfold del. rewrite filter_app. simpl.
  rewrite String.eqb_refl. simpl.
  fold (del done cocd). fold (del todo cocd).
  now rewrite (del_fresh done cocd Hd), (del_fresh todo cocd Ht).
Qed.

Lemma prune_keeps_active : forall todo done,
  NoDup (map fst (done ++ todo)%list) ->
  prune (map fst todo) (done ++ todo)%list
  = Ok (done ++ filter (fun entry => active (snd entry)) todo)%list.
Proof.
  induction todo as [|[cocd r] todo IH]; intros done Hnd.
  - simpl. reflexivity.
  - assert (Hd : ~ In cocd (map fst done) /\ ~ In cocd (map fst todo)).
    { rewrite map_app in Hnd. simpl in Hnd.
      apply NoDup_remove_2 in Hnd. rewrite in_app_iff in Hnd. tauto. }
    destruct Hd as [Hd Ht].
    cbn [map fst prune]. rewrite (get_app_fresh done cocd r todo Hd).
    cbn [filter snd]. destruct (active r); cbn [negb].
    + replace (done ++ (cocd, r) :: todo)%list
        with ((done ++ [(cocd, r)]) ++ todo)%list
        by (now rewrite <- app_assoc).
      rewrite IH by (now rewrite <- app_assoc).
      now rewrite <- app_assoc.
    + rewrite (del_app done cocd r todo Hd Ht). apply IH.
      rewrite map_app in *. simpl in Hnd. now apply NoDup_remove_1 in Hnd.
Qed.

(** X19: [load_processing_rules] returns exactly the rules that are
    switched on, with their parameters and in the order of the file; the
    rules that are switched off are gone. *)
Theorem load_processing_rules_keeps_active loaded :
  NoDup (map fst loaded) ->
  load_processing_rules loaded
  = Ok (filter (fun entry => active (snd entry)) loaded).
Proof.
  intros Hnd. unfold load_processing_rules.
  exact (prune_keeps_active loaded [] Hnd).
Qed.

Lemma load_processing_rules_keeps_active_witness :
  NoDup (map fst three_countries)
  /\ load_processing_rules three_countries
     = Ok [ ("0075", mk true "Germany" [66010030; 66010010]);
            ("0073", mk true "Switzerland" []) ].
Proof.
  assert (Hnd : NoDup (map fst three_countries)).
  { repeat constructor; simpl; intuition discriminate. }
  split; [exact Hnd|].
  exact (load_processing_rules_keeps_active three_countries Hnd).
Defined.

End RulesFacts.

Section LogPathFacts.
Import LogPath.

Variable join : string -> string -> string.
Variable isfile : string -> bool.
Variables log_dir date_tag : string.

Lemma search_first_free : forall fuel nth n,
  (nth < n)%nat -> (n <= nth + fuel)%nat ->
  (forall k, (nth < k < n)%nat ->
             isfile (join log_dir (log_name date_tag k)) = true) ->
  isfile (join log_dir (log_name date_tag n)) = false ->
  search join isfile log_dir date_tag fuel nth
  = Some (join log_dir (log_name date_tag n)).
Proof.
  induction fuel as [|fuel IH]; intros nth n Hlt Hfuel Hbusy Hfree; [lia|].
  cbn [search]. cbv zeta.
  destruct (Nat.eq_dec (S nth) n) as [<-|Hne].
  - now rewrite Hfree.
  - rewrite (Hbusy (S nth)) by lia. cbn [negb].
    apply IH; [lia|lia| |assumption]. intros k Hk. apply Hbusy. lia.
Qed.

(** X20: [_compile_log_path] returns the log path with the lowest number,
    counted from 1, that is not yet a file of the log directory: it never
    names an existing file and never skips a free number. *)
Theorem compile_log_path_lowest_free n fuel :
  (1 <= n)%nat -> (n <= fuel)%nat ->
  (forall k, (1 <= k < n)%nat ->
             isfile (join log_dir (log_name date_tag k)) = true) ->
  isfile (join log_dir (log_name date_tag n)) = false ->
  _compile_log_path join isfile log_dir date_tag fuel
  = Some (join log_dir (log_name date_tag n)).
Proof.
  intros Hn Hfuel Hbusy Hfree. unfold _compile_log_path.
  apply search_first_free; [lia|lia| |assumption].
  intros k Hk. apply Hbusy. lia.
Qed.

End LogPathFacts.

Lemma compile_log_path_lowest_free_witness :
  (1 <= 3)%nat /\ (3 <= 10)%nat
  /\ LogPath._compile_log_path LogPath.join_backslash LogPath.two_logs
       "logs" "2021-05-15" 10
     = Some "logs\2021-05-15_003.log".
Proof.
  split; [lia|]. split; [lia|].
  refine (compile_log_path_lowest_free LogPath.join_backslash LogPath.two_logs
            "logs" "2021-05-15" 3 10 _ _ _ _); try lia; [|reflexivity].
  intros k Hk. destruct k as [|[|[|k]]]; [lia|reflexivity|reflexivity|lia].
Defined.

(** ** Layout and naming of the report *)

Section LayoutFacts.
Import Layout.

Lemma max_app a b : max (a ++ b)%list = Nat.max (max a) (max b).
Proof.
  unfold max. induction a as [|x a IH]; simpl; [reflexivity|].
  rewrite IH. now rewrite Nat.max_assoc.
Qed.

Lemma max_ge vals n : In n vals -> (n <= max vals)%nat.
Proof.
  unfold max. induction vals as [|x vals IH]; simpl; [tauto|].
  intros [->|H]; [lia|]. specialize (IH H). lia.
Qed.

Lemma max_attained vals :
  vals <> [] -> In (max vals) vals.
Proof.
  unfold max. induction vals as [|x vals IH]; [congruence|]. intros _.
  destruct vals as [|y vals].
  - simpl. left. lia.
  - assert (Hin : In (fold_right Nat.max 0%nat (y :: vals)) (y :: vals))
      by (apply IH; congruence).
    change (fold_right Nat.max 0%nat (x :: y :: vals))
      with (Nat.max x (fold_right Nat.max 0%nat (y :: vals))).
    destruct (Nat.max_spec x (fold_right Nat.max 0%nat (y :: vals)))
      as [[_ ->]|[_ ->]]; [now right|now left].
Qed.

Lemma lengths_In data v :
  In (Some v) data -> In (String.length v) (lengths data).
Proof.
  induction data as [|[w|] data IH]; simpl; [tauto| |].
  - intros [H|H]; [left; congruence|right; auto].
  - intros [H|H]; [discriminate|auto].
Qed.

Lemma In_lengths data n :
  In n (lengths data) -> exists v, In (Some v) data /\ String.length v = n.
Proof.
  induction data as [|[w|] data IH]; simpl; [tauto| |].
  - intros [H|H]; [exists w; auto|].
    destruct (IH H) as [v [Hv Hn]]. exists v; auto.
  - intros H. destruct (IH H) as [v [Hv Hn]]. exists v; auto.
Qed.

(** X21: the width [_get_col_width] computes holds the header and every
    value of the column that is present, and it is tight: the header or
    one of the values has exactly that many characters. *)
Theorem get_col_width_fits data_fld_vals data_fld_name :
  (String.length data_fld_name
   <= _get_col_width data_fld_vals data_fld_name)%nat
  /\ (forall v, In (Some v) data_fld_vals ->
                (String.length v
                 <= _get_col_width data_fld_vals data_fld_name)%nat)
  /\ (_get_col_width data_fld_vals data_fld_name
      = String.length data_fld_name
      \/ exists v, In (Some v) data_fld_vals
                   /\ String.length v
                      = _get_col_width data_fld_vals data_fld_name).
Proof.
  unfold _get_col_width. cbv zeta.
  set (vals := (lengths data_fld_vals ++ [String.length data_fld_name])%list).
  split; [|split].
  - apply max_ge. unfold vals. apply in_or_app. right. now left.
  - intros v Hv. apply max_ge. unfold vals. apply in_or_app. left.
    now apply lengths_In.
  - assert (Hin : In (max vals) vals).
    { apply max_attained. unfold vals. intros H.
      apply app_eq_nil in H. destruct H as [_ H]. discriminate. }
    unfold vals in Hin at 2. apply in_app_or in Hin.
    destruct Hin as [Hin|[Hin|[]]].
    + right. now apply In_lengths.
    + left. now symmetry.
Qed.

Lemma str_replace_back s :
  forallb_string no_blank s = true ->
  str_replace " " "_" (str_replace "_" " " s) = s.
Proof.
  induction s as [|c s IH]; simpl; [reflexivity|].
  intros H. apply andb_true_iff in H. destruct H as [Hc Hs].
  destruct (Ascii.eqb_spec c "_") as [->|Hne].
  - simpl. now rewrite IH.
  - simpl. unfold no_blank in Hc. apply negb_true_iff in Hc.
    rewrite Hc. now rewrite IH.
Qed.

(** X22: the renaming of the columns for the sheets is undone afterwards:
    on column names without a blank, putting blanks for the underscores
    and then underscores for the blanks gives the names back, so the
    columns are found by their names again when the widths and formats are
    set. *)
Theorem headers_restored columns :
  Forall (fun name => forallb_string no_blank name = true) columns ->
  restore_headers (format_headers columns) = columns.
Proof.
  unfold restore_headers, format_headers.
  induction 1 as [|name columns Hname _ IH]; simpl; [reflexivity|].
  now rewrite str_replace_back, IH.
Qed.

Lemma headers_restored_witness :
  Forall (fun name => forallb_string no_blank name = true) processed_header
  /\ restore_headers (format_headers processed_header) = processed_header.
Proof.
  assert (H : Forall (fun name => forallb_string no_blank name = true)
                     processed_header)
    by (repeat constructor).
  split; [exact H|]. exact (headers_restored processed_header H).
Defined.

Lemma startswith_xlsx_length a :
  startswith a "xlsx" = true -> (4 <= String.length a)%nat.
Proof.
  destruct a as [|c1 [|c2 [|c3 [|c4 a]]]]; simpl;
    rewrite ?andb_false_r; try discriminate. intros _. lia.
Qed.

Lemma startswith_xlsx_sep a sep b :
  sep <> "x"%char -> sep <> "l"%char -> sep <> "s"%char ->
  startswith (a ++ String sep b) "xlsx" = startswith a "xlsx".
Proof.
  intros Hx Hl Hs.
  apply Ascii.eqb_neq in Hx. apply Ascii.eqb_neq in Hl.
  apply Ascii.eqb_neq in Hs.
  destruct a as [|c1 [|c2 [|c3 [|c4 a]]]]; simpl;
    rewrite ?Hx, ?Hl, ?Hs, ?andb_false_r; reflexivity.
Qed.

Lemma replace_from_sep sep b :
  sep <> "x"%char -> sep <> "l"%char -> sep <> "s"%char ->
  forall a skip, (skip <= String.length a)%nat ->
  replace_from "xlsx" "xlsm" skip (a ++ String sep b)
  = replace_from "xlsx" "xlsm" skip a
    ++ String sep (replace_from "xlsx" "xlsm" 0 b).
Proof.
  intros Hx Hl Hs. induction a as [|c a IH]; intros skip Hskip.
  - simpl in Hskip. assert (skip = 0%nat) as -> by lia.
    cbn [append replace_from].
    change (String sep b) with ("" ++ String sep b).
    rewrite (startswith_xlsx_sep "" sep b Hx Hl Hs). reflexivity.
  - destruct skip as [|k].
    + change (String c a ++ String sep b) with (String c (a ++ String sep b)).
      cbn [replace_from].
      change (String c (a ++ String sep b)) with (String c a ++ String sep b).
      rewrite (startswith_xlsx_sep (String c a) sep b Hx Hl Hs).
      destruct (startswith (String c a) "xlsx") eqn:Hstart.
      * apply startswith_xlsx_length in Hstart. simpl in Hstart.
        rewrite IH by (simpl; lia). now rewrite append_assoc.
      * rewrite IH by lia. reflexivity.
    + simpl. apply IH. simpl in Hskip. lia.
Qed.

Lemma new_report_path_sep a sep b :
  sep <> "x"%char -> sep <> "l"%char -> sep <> "s"%char ->
  new_report_path (a ++ String sep b)
  = new_report_path a ++ String sep (new_report_path b).
Proof.
  intros Hx Hl Hs. unfold new_report_path, replace.
  apply replace_from_sep; auto. lia.
Qed.

Lemma str_endswith_app a b : str_endswith (a ++ b) b = true.
Proof.
  induction a as [|c a IH].
  - destruct b; simpl; rewrite ?Ascii.eqb_refl, ?String.eqb_refl; reflexivity.
  - change (String c a ++ b) with (String c (a ++ b)).
    cbn [str_endswith]. rewrite IH. apply orb_true_r.
Qed.

Lemma str_endswith_inv s suffix :
  str_endswith s suffix = true -> exists stem, s = stem ++ suffix.
Proof.
  induction s as [|c s IH]; cbn [str_endswith]; intros H;
    apply orb_true_iff in H; destruct H as [H|H].
  - apply String.eqb_eq in H. exists "". now subst.
  - discriminate.
  - apply String.eqb_eq in H. exists "". now subst.
  - destruct (IH H) as [stem ->]. now exists (String c stem).
Qed.

Lemma lower_app a b : lower (a ++ b) = lower a ++ lower b.
Proof. induction a as [|c a IH]; simpl; [reflexivity|now rewrite IH]. Qed.

(** X23: the name the workbook is to be renamed to (line 179), for a
    report whose configured name lacks the extension or ends in a
    lower-case [.xlsx].  [report_output] hands on a name that ends in
    [.xlsx]; in the new path that extension has become [.xlsm], and what
    stands in front of it, directory and name alike, has passed through
    the same replacement: the replacement is not confined to the
    extension. *)
Theorem report_path_ends_in_xlsm dir name calendar_year calendar_month :
  str_endswith (lower (substituted name calendar_year calendar_month)) ".xlsx"
    = false
  \/ str_endswith (substituted name calendar_year calendar_month) ".xlsx"
     = true ->
  exists stem,
    report_name name calendar_year calendar_month = stem ++ ".xlsx"
    /\ new_report_path
         (dir ++ report_name name calendar_year calendar_month)
       = new_report_path (dir ++ stem) ++ ".xlsm"
    /\ str_endswith
         (new_report_path
            (dir ++ report_name name calendar_year calendar_month))
         ".xlsm" = true.
Proof.
  intros H.
  assert (Hstem : exists stem,
            report_name name calendar_year calendar_month = stem ++ ".xlsx").
  { unfold report_name. cbv zeta. destruct H as [H|H].
    - rewrite H. cbn [negb]. eexists; reflexivity.
    - destruct (str_endswith_inv _ _ H) as [stem Hs]. rewrite Hs.
      rewrite lower_app.
      change (lower ".xlsx") with ".xlsx".
      rewrite str_endswith_app. cbn [negb]. now exists stem. }
  destruct Hstem as [stem Hstem]. exists stem. split; [exact Hstem|].
  rewrite Hstem.
  assert (Hnew : new_report_path (dir ++ stem ++ ".xlsx")
                 = new_report_path (dir ++ stem) ++ ".xlsm").
  { change (stem ++ ".xlsx") with (stem ++ String "." "xlsx").
    now rewrite <- append_assoc, new_report_path_sep by discriminate. }
  split; [exact Hnew|]. rewrite Hnew. apply str_endswith_app.
Qed.

Lemma report_path_ends_in_xlsm_witness :
  (str_endswith (lower (substituted "FBL3N_$calendar_year$_$calendar_month$"
                                    "2021" "05")) ".xlsx" = false
   \/ str_endswith (substituted "FBL3N_$calendar_year$_$calendar_month$"
                                "2021" "05") ".xlsx" = true)
  /\ report_name "FBL3N_$calendar_year$_$calendar_month$" "2021" "05"
     = "FBL3N_2021_05.xlsx"
  /\ new_report_path
       ("temp\" ++ report_name "FBL3N_$calendar_year$_$calendar_month$"
                               "2021" "05")
     = "temp\FBL3N_2021_05.xlsm"
  /\ new_report_path
       ("xlsx\" ++ report_name "FBL3N_$calendar_year$_$calendar_month$"
                               "2021" "05")
     = "xlsm\FBL3N_2021_05.xlsm"
  /\ exists stem,
       report_name "FBL3N_$calendar_year$_$calendar_month$" "2021" "05"
       = stem ++ ".xlsx"
       /\ new_report_path
            ("xlsx\" ++ report_name "FBL3N_$calendar_year$_$calendar_month$"
                                    "2021" "05")
          = new_report_path ("xlsx\" ++ stem) ++ ".xlsm"
       /\ str_endswith
            (new_report_path
               ("xlsx\" ++ report_name "FBL3N_$calendar_year$_$calendar_month$"
                                       "2021" "05"))
            ".xlsm" = true.
Proof.
  assert (H : str_endswith
                (lower (substituted "FBL3N_$calendar_year$_$calendar_month$"
                                    "2021" "05")) ".xlsx" = false
              \/ str_endswith
                   (substituted "FBL3N_$calendar_year$_$calendar_month$"
                                "2021" "05") ".xlsx" = true)
    by (left; reflexivity).
  split; [exact H|]. split; [reflexivity|]. split; [reflexivity|].
  split; [reflexivity|].
  exact (report_path_ends_in_xlsm "xlsx\"
           "FBL3N_$calendar_year$_$calendar_month$" "2021" "05" H).
Defined.

End LayoutFacts.

(** ** When the second merge fans out *)

Section FanOutFacts.
Import Resolver.

Lemma pair_eqb_eq a b : pair_eqb a b = true -> a = b.
Proof.
  destruct a as [h1 n1], b as [h2 n2]. unfold pair_eqb. simpl.
  intros H. apply andb_true_iff in H. destruct H as [Hh Hn].
  destruct h1 as [x|], h2 as [y|]; simpl in Hh; try discriminate;
    destruct n1 as [u|], n2 as [v|]; simpl in Hn; try discriminate;
    try (apply Z.eqb_eq in Hh; subst); try (apply String.eqb_eq in Hn; subst);
    reflexivity.
Qed.

Lemma drop_duplicates_In x : forall l, In x l -> In x (drop_duplicates l).
Proof.
  induction l as [|y l IH]; [tauto|]. intros [->|H]; simpl; [now left|].
  destruct (pair_eqb x y) eqn:E.
  - left. symmetry. now apply pair_eqb_eq.
  - right. apply filter_In. split; [now apply IH|]. now rewrite E.
Qed.

Lemma filter_one {B : Type} (p : B -> bool) x l :
  In x l -> p x = true -> (1 <= length (filter p l))%nat.
Proof.
  intros Hin Hp.
  assert (H : In x (filter p l)) by (apply filter_In; now split).
  destruct (filter p l); [destruct H|simpl; lia].
Qed.

Lemma filter_two {B : Type} (p : B -> bool) x y : forall l,
  In x l -> In y l -> x <> y -> p x = true -> p y = true ->
  (2 <= length (filter p l))%nat.
Proof.
  induction l as [|z l IH]; [intros []|].
  intros [->|Hx] [->|Hy] Hne Hpx Hpy; simpl.
  - congruence.
  - rewrite Hpx. simpl. pose proof (filter_one p y l Hy Hpy). lia.
  - rewrite Hpy. simpl. pose proof (filter_one p x l Hx Hpx). lia.
  - specialize (IH Hx Hy Hne Hpx Hpy). destruct (p z); simpl; lia.
Qed.

Lemma merge_left_strict {A B : Type} (on : A -> B -> bool) right a :
  forall left,
  In a left -> (2 <= length (filter (on a) right))%nat ->
  (length left < length (merge_left on left right))%nat.
Proof.
  induction left as [|a' left IH]; [intros []|]. intros Hin Hm.
  rewrite merge_left_cons, length_app. cbn [length].
  pose proof (merge_left_length on right left) as Hge.
  destruct Hin as [->|Hin].
  - destruct (filter (on a) right) as [|b [|b' found]]; simpl in *; lia.
  - specialize (IH Hin Hm).
    destruct (filter (on a') right); cbn [length map]; lia.
Qed.

Lemma merge_left_keeps {A B : Type} (on : A -> B -> bool) right a :
  forall left,
  In a left -> exists b, In (a, b) (merge_left on left right).
Proof.
  induction left as [|a' left IH]; [intros []|]. intros Hin.
  rewrite merge_left_cons. destruct Hin as [->|Hin].
  - destruct (filter (on a) right) as [|b found].
    + exists None. apply in_or_app. left. now left.
    + exists (Some b). apply in_or_app. left. now left.
  - destruct (IH Hin) as [b Hb]. exists b. apply in_or_app. now right.
Qed.

(** The general case behind the sample with customer 4000001: whenever the master lists
    one head office under two different names and the aggregated table
    holds a row for that head office, the merged table has more rows than
    the aggregated one. *)
Lemma shared_head_office_fans_out aggregated cust_data a c1 c2 h :
  In a aggregated -> Agg.Customer_Number a = Some h ->
  In c1 cust_data -> In c2 cust_data ->
  Customer.head_office c1 = Some h -> Customer.head_office c2 = Some h ->
  Customer.Customer_Name c1 <> Customer.Customer_Name c2 ->
  (length aggregated < length (renamed aggregated cust_data))%nat.
Proof.
  intros Ha Hnum Hc1 Hc2 Hh1 Hh2 Hne.
  rewrite renamed_length. unfold updated_hd_off.
  destruct (merge_left_keeps on_branch (branch_table cust_data) a aggregated Ha)
    as [x Hx].
  fold (updated_cust_num aggregated cust_data) in Hx.
  pose proof (merge_left_length on_branch (branch_table cust_data) aggregated)
    as Hge.
  fold (updated_cust_num aggregated cust_data) in Hge.
  enough (length (updated_cust_num aggregated cust_data)
          < length (merge_left on_head_office
                      (updated_cust_num aggregated cust_data)
                      (head_office_table cust_data)))%nat by lia.
  apply (merge_left_strict on_head_office _ (a, x)); [exact Hx|].
  apply (filter_two _ (Some h, Customer.Customer_Name c1)
                      (Some h, Customer.Customer_Name c2)).
  - apply drop_duplicates_In. apply in_map_iff. exists c1.
    now rewrite Hh1.
  - apply drop_duplicates_In. apply in_map_iff. exists c2.
    now rewrite Hh2.
  - congruence.
  - unfold on_head_office. simpl. rewrite Hnum. simpl. apply Z.eqb_refl.
  - unfold on_head_office. simpl. rewrite Hnum. simpl. apply Z.eqb_refl.
Qed.

(** On such a master and table [assign_customers] aborts. *)
Lemma shared_head_office_aborts compacted aggregated cust_data a c1 c2 h :
  compacted <> [] ->
  Aggregator._aggregate_data compacted = Ok aggregated ->
  In a aggregated -> Agg.Customer_Number a = Some h ->
  In c1 cust_data -> In c2 cust_data ->
  Customer.head_office c1 = Some h -> Customer.head_office c2 = Some h ->
  Customer.Customer_Name c1 <> Customer.Customer_Name c2 ->
  assign_customers compacted cust_data
  = Raise (AssertionError "Input and output data rows not equal!").
Proof.
  intros Hne Hagg Ha Hnum Hc1 Hc2 Hh1 Hh2 Hnames.
  rewrite (assign_customers_nonempty _ _ _ Hne Hagg).
  pose proof (shared_head_office_fans_out aggregated cust_data a c1 c2 h
                Ha Hnum Hc1 Hc2 Hh1 Hh2 Hnames) as Hlt.
  destruct (Nat.eqb_spec (length aggregated)
              (length (renamed aggregated cust_data))); [lia|reflexivity].
Qed.

End FanOutFacts.
